(** * OCR candidate selection and page assembly

    A shallow embedding of the two scripts of the repository,
    [extract_text_from_images.py] (the simple variant, output [sum.txt]) and
    [read_book_to_text.py] (the Book-folder variant, output
    [raw-output.txt]), and the properties of their selection, clean-up,
    classification and assembly steps. *)

From Stdlib Require Import NArith Ascii String.
From stdpp Require Import list sorting lexico pretty gmap.
From Equations Require Import Equations.

Local Open Scope N_scope.
Local Open Scope nat_scope.
Local Open Scope list_scope.

(** ** Python [str]

    A Python [str] is a sequence of Unicode code points; [len] counts code
    points, so a text is a list of code points here. *)

Abbreviation str := (list N).

(** An ASCII literal as a [str]. *)
Definition ustr (s : string) : str := N_of_ascii <$> list_ascii_of_string s.

Module Py.

Definition NL : N := 10%N.

(** [str.isspace] of one code point (the Unicode whitespace set CPython
    uses for [str.strip]). *)
Definition isspace (c : N) : bool :=
  ((9 <=? c) && (c <=? 13) || (28 <=? c) && (c <=? 32)
   || (c =? 133) || (c =? 160) || (c =? 5760)
   || (8192 <=? c) && (c <=? 8202)
   || (c =? 8232) || (c =? 8233) || (c =? 8239) || (c =? 8287)
   || (c =? 12288))%N.

Fixpoint lstrip (s : str) : str :=
  match s with
  | [] => []
  | c :: s' => if isspace c then lstrip s' else s
  end.

Definition rstrip (s : str) : str := reverse (lstrip (reverse s)).

(** [s.strip()]: skip whitespace from the left, then from the right. *)
Definition strip (s : str) : str := rstrip (lstrip s).

Definition len (s : str) : nat := length s.

(** [max(l, key=key)]: the first element is the running best, and a later
    element replaces it only when its key is strictly greater. On an empty
    list Python raises [ValueError]. *)
Fixpoint max_from {A} (key : A → nat) (best : A) (l : list A) : A :=
  match l with
  | [] => best
  | x :: l' =>
      if key best <? key x then max_from key x l' else max_from key best l'
  end.

Definition max_key {A} (key : A → nat) (l : list A) : option A :=
  match l with
  | [] => None
  | x :: l' => Some (max_from key x l')
  end.

End Py.

(** ** Candidate selection

    [extract_text_with_layout] (Book variant):
    [max(results, key=lambda x: len(x.strip()))];
    [extract_text_from_image] (simple variant): [max(texts, key=len)]. *)

Definition trimmed_len (x : str) : nat := Py.len (Py.strip x).

Definition select_layout (results : list str) : option str :=
  Py.max_key trimmed_len results.

Definition select_simple (texts : list str) : option str :=
  Py.max_key Py.len texts.

(** What a stable maximum is: [x] sits at position [i] of [l], no element has
    a greater key, and every earlier element has a strictly smaller one. *)
Definition stable_max {A} (key : A → nat) (l : list A) (x : A) : Prop :=
  ∃ i, l !! i = Some x
       ∧ (∀ y, y ∈ l → key y ≤ key x)
       ∧ (∀ j y, j < i → l !! j = Some y → key y < key x).

(** ** Blank-line clean-up

    [re.sub(r'\n{3,}', '\n\n', text)]: the scanner tries the pattern at each
    position from the left; [\n{3,}] is greedy, so a match takes the whole
    run of newlines that starts there. A match is replaced by two newlines
    and the scan resumes after it; where there is no match the character is
    copied and the scan moves one position on. *)

(** Number of newlines at the front of [s]. *)
Fixpoint newline_run (s : str) : nat :=
  match s with
  | c :: s' => if (c =? Py.NL)%N then S (newline_run s') else 0
  | [] => 0
  end.

Equations? re_sub_newlines (text : str) : str by wf (length text) lt :=
  re_sub_newlines [] := [];
  re_sub_newlines (c :: s) with le_lt_dec 3 (newline_run (c :: s)) => {
    | left _ := Py.NL :: Py.NL
                  :: re_sub_newlines (drop (newline_run (c :: s)) (c :: s));
    | right _ := c :: re_sub_newlines s }.
Proof. rewrite length_drop. simpl length. lia. Qed.

(** The rule in the words of the specification: cut the text into maximal
    runs of newlines and single other characters, shorten every run of three
    or more newlines to two, and put the pieces back together. *)
Inductive piece :=
| Newlines (n : nat)
| Other (c : N).

Fixpoint pieces (s : str) : list piece :=
  match s with
  | [] => []
  | c :: s' =>
      if (c =? Py.NL)%N then
        match pieces s' with
        | Newlines n :: ps => Newlines (S n) :: ps
        | ps => Newlines 1 :: ps
        end
      else Other c :: pieces s'
  end.

Definition squeeze (p : piece) : piece :=
  match p with
  | Newlines n => Newlines (if 3 <=? n then 2 else n)
  | Other c => Other c
  end.

Definition render (p : piece) : str :=
  match p with
  | Newlines n => replicate n Py.NL
  | Other c => [c]
  end.

Definition collapse_runs (s : str) : str :=
  mjoin (render ∘ squeeze <$> pieces s).

(** A text in which no run of three or more newlines starts anywhere. *)
Definition no_long_run (s : str) : Prop := ∀ i, newline_run (drop i s) < 3.

(** ** Effects

    The scripts call the image library, the recognition engine and the file
    system, print to the console and write one file. A computation yields
    the events it performed, in order, and either a value or a raised
    exception (one of class [Exception], the only kind the scripts catch),
    identified by its message. A [Print] or [Write] event records the call;
    the console is taken to accept every text, and what the output file
    holds after a [Write] is said by [stored], further down. *)

Inductive result (A : Type) : Type :=
| Ok (a : A)
| Raise (e : str).
Arguments Ok {A} a.
Arguments Raise {A} e.

(** The two preprocessing pipelines: [preprocess_image] of the simple
    variant and [preprocess_for_high_accuracy] of the Book variant. *)
Inductive recipe := DefaultRecipe | HighAccuracy.

(** What is handed to the engine: the image as [Image.open] returns it, or
    the raster a preprocessing pipeline produced from it. *)
Inductive image :=
| Original (path : str)
| Variant (r : recipe) (path : str).

(** Language sets ([tha+eng], [eng]) and page segmentation modes
    ([--psm 3], fully automatic; [--psm 6], uniform block of text). Every
    call passes [--oem 3]. *)
Inductive lang := tha_eng | eng.
Inductive psm := psm3 | psm6.

(** One constructor per [print] of the scripts, with the values it formats. *)
Inductive message :=
| MsgImageError (image_path e : str)
| MsgCannotRead (file_path e : str)
| MsgReadError (file_path e : str)
| MsgNoBookFolder
| MsgNoFiles
| MsgFound (n : nat)
| MsgRule
| MsgProcessing (idx total : nat) (filename : str)
| MsgReadingImage
| MsgReadingText
| MsgReadOk (char_count line_count : nat)
| MsgReadChars (n : nat)
| MsgNoContent
| MsgSaved
| MsgStatsHeading
| MsgStatFiles (n : nat)
| MsgStatChars (n : nat)
| MsgStatLines (n : nat)
| MsgLineTotal (n : nat)
| MsgDone
| MsgNothingExtracted.

Inductive event :=
| Recognize (img : image) (l : lang) (m : psm)
| Print (m : message)
| Write (content : str).

Definition M (A : Type) : Type := list event * result A.

Global Instance M_ret : MRet M := λ A a, ([], Ok a).
Global Instance M_bind : MBind M := λ A B f m,
  match m with
  | (t, Ok a) => let '(t', r) := f a in (t ++ t', r)
  | (t, Raise e) => (t, Raise e)
  end.

Definition emit (ev : event) : M unit := ([ev], Ok ()).
Definition print (m : message) : M unit := emit (Print m).
Definition lift {A} (r : result A) : M A := ([], r).

(** [try: body except Exception as e: handler e]. *)
Definition try_except {A} (body : M A) (handler : str → M A) : M A :=
  match body with
  | (t, Ok a) => (t, Ok a)
  | (t, Raise e) => let '(t', r) := handler e in (t ++ t', r)
  end.

Definition trace {A} (m : M A) : list event := m.1.
Definition outcome {A} (m : M A) : result A := m.2.

(** The calls of one computation to the recognition engine, in order. *)
Definition is_recognize (ev : event) : bool :=
  match ev with Recognize _ _ _ => true | _ => false end.
Definition invocations (t : list event) : list event :=
  List.filter is_recognize t.

(** The documents handed to [f.write] during a run, in order: [Write d]
    records [open(output_file, 'w')] followed by the call [f.write(d)].
    What the file holds afterwards is [stored d], defined below. *)
Definition writes (t : list event) : list str :=
  omap (λ ev, match ev with Write d => Some d | _ => None end) t.

(** How [open(...).read()] on a text file can end. *)
Inductive read_result :=
| ReadOk (content : str)
| UnicodeDecodeError (e : str)
| ReadError (e : str).

(** The environment of a run. *)
Record world := {
  (** the OpenCV pipeline of a recipe on a path; it raises when [cv2.imread]
      could not decode the file *)
  cv2_pipeline : recipe → str → result unit;
  (** [Image.open] *)
  pil_open : str → result unit;
  (** [pytesseract.image_to_string] *)
  tesseract : image → lang → psm → result str;
  (** [open(path, encoding='utf-8').read()] and the same with [latin-1]:
      the text as [read] returns it, that is decoded and with the line
      endings [\r\n] and [\r] translated to [\n] *)
  read_utf8 : str → read_result;
  read_latin1 : str → result str;
  (** the names in the scanned directory, in the order the operating system
      lists them *)
  listdir : list str;
  (** the directory part of the patterns handed to [glob.glob] (simple
      variant), which is [str(current_dir)] *)
  glob_dirname : str;
  (** what [glob.glob] scans when that directory part contains [*], [?] or
      [[] and so is a pattern itself: the paths [os.path.join(d, name)] of
      the entries [name] of every directory [d] it matches *)
  glob_found : gset str;
  (** [str(book_folder)] and whether the folder exists (Book variant) *)
  book_folder : str;
  book_exists : bool;
  (** [st_mtime] of the output file as the header formats it, when the file
      exists before the run (Book variant) *)
  output_mtime : option str;
}.

(** The same environment with the directory listed in another order. *)
Definition with_listdir (w : world) (names : list str) : world :=
  {| cv2_pipeline := cv2_pipeline w; pil_open := pil_open w;
     tesseract := tesseract w; read_utf8 := read_utf8 w;
     read_latin1 := read_latin1 w; listdir := names;
     glob_dirname := glob_dirname w; glob_found := glob_found w;
     book_folder := book_folder w;
     book_exists := book_exists w; output_mtime := output_mtime w |}.

(** ** Paths, patterns and order *)

Definition SLASH : N := 47%N.
Definition DOT : N := 46%N.
Definition STAR : N := 42%N.
Definition EQUALS : N := 61%N.
Definition QUESTION : N := 63%N.
Definition LBRACKET : N := 91%N.

(** [glob.has_magic]: one of [*], [?] and [[] occurs in the text. *)
Definition has_magic (s : str) : bool :=
  bool_decide (Exists (λ c, c ∈ [STAR; QUESTION; LBRACKET]) s).

(** [str.lower], as far as a comparison with the ASCII extension lists can
    tell: A-Z go to a-z, and U+212A (the only other code point that Python
    lowers to an ASCII letter) goes to k. *)
Definition lower_char (c : N) : N :=
  (if (65 <=? c) && (c <=? 90) then c + 32
   else if c =? 8490 then 107 else c)%N.
Definition lower (s : str) : str := lower_char <$> s.

(** [s.rfind(c)]: the last index of [c], [None] for -1. *)
Fixpoint rfind (c : N) (s : str) : option nat :=
  match s with
  | [] => None
  | x :: s' =>
      match rfind c s' with
      | Some i => Some (S i)
      | None => if (x =? c)%N then Some 0 else None
      end
  end.

(** [PurePath.suffix] of a file name: [name[i:]] for [i = name.rfind('.')]
    when [0 < i < len(name) - 1], otherwise empty. *)
Definition Path_suffix (name : str) : str :=
  match rfind DOT name with
  | Some i => if (0 <? i) && (i <? length name - 1) then drop i name else []
  | None => []
  end.

(** [Path(p).name] of a path that does not end with a slash: what follows
    its last slash. *)
Fixpoint Path_name (p : str) : str :=
  match p with
  | [] => []
  | c :: p' =>
      if bool_decide (SLASH ∈ p') then Path_name p'
      else if (c =? SLASH)%N then p' else p
  end.

(** [os.path.join(dirname, name)] for a relative [name]: nothing is put
    before the name when [dirname] is empty, and a slash is added unless
    [dirname] ends with one. *)
Definition join_prefix (dirname : str) : str :=
  match last dirname with
  | None => []
  | Some c => if (c =? SLASH)%N then dirname else dirname ++ [SLASH]
  end.

Definition path_join (dirname name : str) : str := join_prefix dirname ++ name.

(** [fnmatch] on the patterns of the scripts, each a star followed by
    literal characters: the name has to end with the literal part. The match
    is case-sensitive (POSIX). *)
Definition fnmatch (name pat : str) : bool :=
  match pat with
  | c :: lit => if (c =? STAR)%N then bool_decide (lit `suffix_of` name)
                else bool_decide (name = pat)
  | [] => bool_decide (name = [])
  end.

(** Python orders [str] by code points, lexicographically; [list.sort]
    moves [y] before [x] only when [y < x]. *)
Definition str_lt (a b : str) : Prop := lexico a b.
Definition str_le (a b : str) : Prop := ¬ str_lt b a.

Global Instance str_le_dec : RelDecision str_le.
Proof. intros a b. unfold str_le, str_lt. apply _. Defined.

(** [l.sort()] and [l.sort(key=lambda x: x.name)] on files of one
    directory, which their names identify. The order is total and
    antisymmetric, so the sorted list is the same for every sorting
    algorithm; [merge_sort] computes it. *)
Definition sort (l : list str) : list str := merge_sort str_le l.

(** [str(n)] for a natural number. *)
Definition decimal (n : nat) : str := ustr (pretty n).

(** ['\n'.join(lines)] *)
Fixpoint join_lines (lines : list str) : str :=
  match lines with
  | [] => []
  | [l] => l
  | l :: ls => l ++ Py.NL :: join_lines ls
  end.

(** [s.count('\n')] *)
Definition count_newlines (s : str) : nat :=
  length (List.filter (λ c, (c =? Py.NL)%N) s).

(** ** The scripts *)

Section scripts.
Context (w : world).

(** *** Calls into the libraries *)

(** The OpenCV pipeline of a recipe: the raster it returns, or the exception
    of its first failing step. *)
Definition preprocess (r : recipe) (image_path : str) : M image :=
  lift (cv2_pipeline w r image_path);; mret (Variant r image_path).

Definition preprocess_image (image_path : str) : M image :=
  preprocess DefaultRecipe image_path.

Definition preprocess_for_high_accuracy (image_path : str) : M image :=
  preprocess HighAccuracy image_path.

Definition Image_open (image_path : str) : M image :=
  lift (pil_open w image_path);; mret (Original image_path).

Definition image_to_string (img : image) (l : lang) (m : psm) : M str :=
  emit (Recognize img l m);; lift (tesseract w img l m).

(** [max] raises [ValueError] on an empty sequence. *)
Definition py_max (o : option str) : M str :=
  match o with
  | Some x => mret x
  | None => lift (Raise (ustr "max() arg is an empty sequence"))
  end.

(** *** [extract_text_from_images.py] *)

(** The body of the [try]. The first call passes the language inside its
    configuration string ([--oem 3 --psm 6 -l tha+eng]), the other two as
    [lang=]. *)
Definition simple_body (image_path : str) : M str :=
  processed_img ← preprocess_image image_path;
  text1 ← image_to_string processed_img tha_eng psm6;
  img_pil ← Image_open image_path;
  text2 ← image_to_string img_pil tha_eng psm6;
  text3 ← image_to_string img_pil eng psm6;
  let texts := [text1; text2; text3] in
  best_text ← py_max (select_simple texts);
  mret (Py.strip best_text).

Definition extract_text_from_image (image_path : str) : M str :=
  try_except (simple_body image_path)
    (λ e, print (MsgImageError image_path e);; mret []).

(** *** [read_book_to_text.py] *)

Definition layout_body (image_path : str) : M str :=
  processed ← preprocess_for_high_accuracy image_path;
  img_original ← Image_open image_path;
  text1 ← image_to_string img_original tha_eng psm6;
  text2 ← image_to_string processed tha_eng psm6;
  text3 ← image_to_string img_original tha_eng psm3;
  text4 ← image_to_string img_original eng psm6;
  let results := [text1; text2; text3; text4] in
  best_text ← py_max (select_layout results);
  let text := Py.strip best_text in
  let text := re_sub_newlines text in
  mret text.

Definition extract_text_with_layout (image_path : str) : M str :=
  try_except (layout_body image_path)
    (λ e, print (MsgImageError image_path e);; mret []).

Definition read_text_file (file_path : str) : M str :=
  match read_utf8 w file_path with
  | ReadOk content => mret (Py.strip content)
  | UnicodeDecodeError _ =>
      try_except
        (content ← lift (read_latin1 w file_path);
         mret (Py.strip content))
        (λ e, print (MsgCannotRead file_path e);; mret [])
  | ReadError e => print (MsgReadError file_path e);; mret []
  end.

End scripts.

(** Literal texts of the written documents (code points of the Thai
    literals of the scripts). *)
Definition rule (n : nat) : str := replicate n EQUALS.
(** "หน้าที่ " *)
Definition page_label : str :=
  [3627; 3609; 3657; 3634; 3607; 3637; 3656; 32]%N.
(** "ไฟล์: " *)
Definition file_label : str := [3652; 3615; 3621; 3660; 58; 32]%N.
(** "📚 สรุปเนื้อหาจากโฟลเดอร์ Book" *)
Definition book_title : str :=
  [128218; 32; 3626; 3619; 3640; 3611; 3648; 3609; 3639; 3657; 3629; 3627;
   3634; 3592; 3634; 3585; 3650; 3615; 3621; 3648; 3604; 3629; 3619; 3660;
   32; 66; 111; 111; 107]%N.
(** "จำนวนไฟล์ทั้งหมด: " and " ไฟล์" *)
Definition count_label : str :=
  [3592; 3635; 3609; 3623; 3609; 3652; 3615; 3621; 3660; 3607; 3633; 3657;
   3591; 3627; 3617; 3604; 58; 32]%N.
Definition count_unit : str := [32; 3652; 3615; 3621; 3660]%N.
(** "วันที่ประมวลผล: " *)
Definition date_label : str :=
  [3623; 3633; 3609; 3607; 3637; 3656; 3611; 3619; 3632; 3617; 3623; 3621;
   3612; 3621; 58; 32]%N.

Definition format_page_separator (page_num : nat) (filename : str) : str :=
  let separator := rule 100 in
  let header := page_label ++ decimal page_num ++ ustr ": " ++ filename in
  [Py.NL; Py.NL] ++ separator ++ [Py.NL] ++ header ++ [Py.NL]
    ++ separator ++ [Py.NL; Py.NL].

(** The header [main] of the Book variant puts before the pages. *)
Definition book_header (file_count : nat) (mtime : option str) : str :=
  rule 100 ++ [Py.NL] ++ book_title ++ [Py.NL] ++ rule 100 ++ [Py.NL]
    ++ count_label ++ decimal file_count ++ count_unit ++ [Py.NL]
    ++ date_label ++ default (ustr "N/A") mtime ++ [Py.NL]
    ++ rule 100 ++ [Py.NL].

Definition image_suffixes : list str :=
  [ustr ".png"; ustr ".jpg"; ustr ".jpeg"; ustr ".bmp"; ustr ".tiff"].
Definition text_suffixes : list str := [ustr ".txt"].

Definition book_image_extensions : list str :=
  [ustr "*.png"; ustr "*.jpg"; ustr "*.jpeg"; ustr "*.PNG"; ustr "*.JPG";
   ustr "*.JPEG"; ustr "*.bmp"; ustr "*.tiff"].
Definition book_text_extensions : list str := [ustr "*.txt"; ustr "*.TXT"].
Definition simple_image_extensions : list str :=
  [ustr "*.png"; ustr "*.jpg"; ustr "*.jpeg"; ustr "*.PNG"; ustr "*.JPG";
   ustr "*.JPEG"].

(** How the dispatch of the Book variant sees a file. *)
Inductive kind := KImage | KText | KUnsupported.

Definition classify (filename : str) : kind :=
  let file_extension := lower (Path_suffix filename) in
  if bool_decide (file_extension ∈ image_suffixes) then KImage
  else if bool_decide (file_extension ∈ text_suffixes) then KText
  else KUnsupported.

Section mains.
Context (w : world).

(** [book_folder.glob(ext)]: every entry of the folder whose name matches,
    in listing order. *)
Definition Path_glob (ext : str) : list str :=
  filter (λ name, fnmatch name ext = true) (listdir w).

(** [glob.glob(str(current_dir / ext))]. [glob] splits its pattern into
    the directory part and [ext]. A directory part without [*], [?] and [[]
    is taken as it is: the result is the names it lists that match [ext] and
    do not start with a dot, each joined to it. A directory part with one of
    them is matched as a pattern: the result is the entries of the
    directories it matches whose names match [ext] and do not start with a
    dot (in an order that the sorting in [main] makes irrelevant). *)
Definition glob_glob (ext : str) : list str :=
  if has_magic (glob_dirname w) then
    filter (λ path, head (Path_name path) ≠ Some DOT
                    ∧ fnmatch (Path_name path) ext = true)
      (elements (glob_found w))
  else
    path_join (glob_dirname w)
      <$> filter (λ name, head name ≠ Some DOT ∧ fnmatch name ext = true)
            (listdir w).

(** [for ext in exts: files.extend(glob(ext))] *)
Definition extend_all (glob : str → list str) (files exts : list str)
  : list str :=
  foldl (λ files ext, files ++ glob ext) files exts.

(** The sorted file list of the Book variant, as names. *)
Definition book_files : list str :=
  let all_files := [] in
  let all_files := extend_all Path_glob all_files book_image_extensions in
  let all_files := extend_all Path_glob all_files book_text_extensions in
  sort all_files.

(** The dispatch on the kind of a file: the value of [content]. *)
Definition book_content (filename : str) : M str :=
  let file_path := path_join (book_folder w) filename in
  match classify filename with
  | KImage => print MsgReadingImage;; extract_text_with_layout w file_path
  | KText => print MsgReadingText;; read_text_file w file_path
  | KUnsupported => mret []
  end.

(** One round of the loop of [main] (Book variant); the result is
    [all_content] after the round. *)
Definition book_step (total idx : nat) (filename : str)
    (all_content : list str) : M (list str) :=
  print (MsgProcessing idx total filename);;
  content ← book_content filename;
  match content with
  | [] => print MsgNoContent;; mret all_content
  | _ =>
      let char_count := Py.len content in
      let line_count := count_newlines content + 1 in
      print (MsgReadOk char_count line_count);;
      let page_separator := format_page_separator idx filename in
      mret (all_content ++ [page_separator; content])
  end.

(** [for idx, file_path in enumerate(all_files, 1)], from [idx] on. *)
Fixpoint book_loop (total idx : nat) (files : list str)
    (all_content : list str) : M (list str) :=
  match files with
  | [] => mret all_content
  | filename :: files' =>
      all_content ← book_step total idx filename all_content;
      book_loop total (S idx) files' all_content
  end.

(** [main] of [read_book_to_text.py]. *)
Definition book_main : M unit :=
  if negb (book_exists w) then print MsgNoBookFolder
  else
    let all_files := book_files in
    match all_files with
    | [] => print MsgNoFiles
    | _ =>
        print (MsgFound (length all_files));;
        print MsgRule;;
        all_content ← book_loop (length all_files) 1 all_files [];
        match all_content with
        | [] => print MsgNothingExtracted
        | _ =>
            let final_text := mjoin all_content in
            let header := book_header (length all_files) (output_mtime w) in
            let final_output := header ++ final_text in
            emit (Write final_output);;
            let total_chars := Py.len final_text in
            let total_lines := count_newlines final_text + 1 in
            print MsgRule;;
            print MsgSaved;;
            print MsgStatsHeading;;
            print (MsgStatFiles (length all_files));;
            print (MsgStatChars total_chars);;
            print (MsgStatLines total_lines);;
            print MsgRule;;
            print MsgDone
        end
    end.

(** The sorted path list of the simple variant. *)
Definition simple_files : list str :=
  sort (extend_all glob_glob [] simple_image_extensions).

(** One round of the loop of [main] (simple variant); the result is
    [all_text] after the round. *)
Definition simple_step (total idx : nat) (image_path : str)
    (all_text : list str) : M (list str) :=
  let filename := Path_name image_path in
  print (MsgProcessing idx total filename);;
  text ← extract_text_from_image w image_path;
  match text with
  | [] => print MsgNoContent;; mret all_text
  | _ =>
      print (MsgReadChars (Py.len text));;
      mret (all_text
              ++ [rule 80; file_label ++ filename; rule 80; text; []])
  end.

(** [for idx, image_path in enumerate(image_files, 1)], from [idx] on. *)
Fixpoint simple_loop (total idx : nat) (files : list str)
    (all_text : list str) : M (list str) :=
  match files with
  | [] => mret all_text
  | image_path :: files' =>
      all_text ← simple_step total idx image_path all_text;
      simple_loop total (S idx) files' all_text
  end.

(** [main] of [extract_text_from_images.py]. *)
Definition simple_main : M unit :=
  let image_files := simple_files in
  match image_files with
  | [] => print MsgNoFiles
  | _ =>
      print (MsgFound (length image_files));;
      print MsgRule;;
      all_text ← simple_loop (length image_files) 1 image_files [];
      match all_text with
      | [] => print MsgNothingExtracted
      | _ =>
          emit (Write (join_lines all_text));;
          print MsgRule;;
          print MsgSaved;;
          print (MsgLineTotal (length all_text));;
          print MsgRule
      end
  end.

End mains.

(** The names the simple variant discovers, before they are joined to the
    directory and sorted. *)
Definition simple_names (w : world) : list str :=
  simple_image_extensions
    ≫= λ ext, filter (λ name, head name ≠ Some DOT ∧ fnmatch name ext = true)
                (listdir w).

(** The value a computation that cannot raise ends with. *)
Definition value {A} (d : A) (m : M A) : A :=
  match outcome m with
  | Ok a => a
  | Raise _ => d
  end.

(** ** The document as a function of the files

    What the loops of the two [main] functions leave in [all_content] and
    [all_text], without the console. *)

Section pages.
Context (w : world).

(** The text a file of the Book folder ends with. *)
Definition book_text (filename : str) : str :=
  value [] (book_content w filename).

(** The text an image of the simple variant ends with. *)
Definition simple_text (image_path : str) : str :=
  value [] (extract_text_from_image w image_path).

(** The pages of a run: ordinal, file and text of every file whose text is
    not empty, for the files numbered from [idx] on. *)
Fixpoint pages (text : str → str) (idx : nat) (files : list str)
  : list (nat * str * str) :=
  match files with
  | [] => []
  | f :: files' =>
      match text f with
      | [] => pages text (S idx) files'
      | c => (idx, f, c) :: pages text (S idx) files'
      end
  end.

(** What a page adds to [all_content] and to [all_text]. *)
Definition book_block (page : nat * str * str) : list str :=
  let '(idx, filename, content) := page in
  [format_page_separator idx filename; content].

Definition simple_block (page : nat * str * str) : list str :=
  let '(_, image_path, text) := page in
  [rule 80; file_label ++ Path_name image_path; rule 80; text; []].

End pages.

(** A text of whitespace only. *)
Definition all_space (s : str) : Prop := Forall (λ c, Py.isspace c = true) s.

(** The calls to the engine, in the order the two extraction functions
    make them. *)
Definition book_triples (image_path : str) : list event :=
  [Recognize (Original image_path) tha_eng psm6;
   Recognize (Variant HighAccuracy image_path) tha_eng psm6;
   Recognize (Original image_path) tha_eng psm3;
   Recognize (Original image_path) eng psm6].

Definition simple_triples (image_path : str) : list event :=
  [Recognize (Variant DefaultRecipe image_path) tha_eng psm6;
   Recognize (Original image_path) tha_eng psm6;
   Recognize (Original image_path) eng psm6].

(** The engine answers the calls [calls] with the texts [results]. *)
Definition answers (w : world) (calls : list event) (results : list str)
  : Prop :=
  Forall2 (λ ev text,
             match ev with
             | Recognize img l m => tesseract w img l m = Ok text
             | _ => False
             end) calls results.

(** The events of a loop whose rounds perform [step idx f]. *)
Fixpoint loop_trace (step : nat → str → list event) (idx : nat)
    (files : list str) : list event :=
  match files with
  | [] => []
  | f :: files' => step idx f ++ loop_trace step (S idx) files'
  end.

(** What a round of either loop prints after the text of a file is known. *)
Definition book_status (content : str) : message :=
  match content with
  | [] => MsgNoContent
  | _ => MsgReadOk (Py.len content) (count_newlines content + 1)
  end.

Definition simple_status (text : str) : message :=
  match text with
  | [] => MsgNoContent
  | _ => MsgReadChars (Py.len text)
  end.

(** The events of one round of each loop. *)
Definition book_round (w : world) (total idx : nat) (filename : str)
  : list event :=
  Print (MsgProcessing idx total filename)
    :: trace (book_content w filename)
    ++ [Print (book_status (book_text w filename))].

Definition simple_round (w : world) (total idx : nat) (image_path : str)
  : list event :=
  Print (MsgProcessing idx total (Path_name image_path))
    :: trace (extract_text_from_image w image_path)
    ++ [Print (simple_status (simple_text w image_path))].

(** The events the handling of one file can perform: calls to the engine
    and the messages of the extraction and reading functions. *)
Definition file_event (ev : event) : bool :=
  match ev with
  | Recognize _ _ _ => true
  | Print (MsgImageError _ _) | Print (MsgCannotRead _ _)
  | Print (MsgReadError _ _) | Print MsgReadingImage
  | Print MsgReadingText => true
  | _ => false
  end.

(** The files a run announces with [MsgProcessing], in order. *)
Definition processed (t : list event) : list str :=
  omap (λ ev, match ev with
              | Print (MsgProcessing _ _ filename) => Some filename
              | _ => None
              end) t.


(** The ordinals of a list of pages. *)
Definition ordinals (ps : list (nat * str * str)) : list nat :=
  (λ p, p.1.1) <$> ps.

(** Each number of the list is one more than the number before it. *)
Definition consecutive (l : list nat) : Prop :=
  ∀ i a b, l !! i = Some a → l !! S i = Some b → b = S a.

(** A run that ends by telling the operator that there was nothing to
    write: no Book folder, no file, or no text in any file. *)
Definition reported_nothing (t : list event) : Prop :=
  last t = Some (Print MsgNoBookFolder)
  ∨ last t = Some (Print MsgNoFiles)
  ∨ last t = Some (Print MsgNothingExtracted).

(** ** Measures of texts and documents *)

(** The characters of a text that are not newlines, in order. *)
Definition other_chars (s : str) : str := filter (λ c, c ≠ Py.NL) s.

(** A text that neither begins nor ends with whitespace. *)
Definition trimmed (s : str) : Prop :=
  (∀ c, head s = Some c → Py.isspace c = false)
  ∧ (∀ c, last s = Some c → Py.isspace c = false).

(** The calls to the engine a file of the Book folder can cause. *)
Definition book_calls (w : world) (filename : str) : list event :=
  match classify filename with
  | KImage => book_triples (path_join (book_folder w) filename)
  | _ => []
  end.

Global Instance kind_eq_dec : EqDecision kind.
Proof. solve_decision. Defined.


(** ** The output file

    [f.write] encodes its text as UTF-8. That fails for a lone surrogate (a
    code point from U+D800 to U+DFFF, which the name of a file can hold when
    its bytes are not UTF-8), with the file already emptied by [open]. *)
Definition surrogate (c : N) : bool := ((55296 <=? c) && (c <=? 57343))%N.
Definition encodable (s : str) : Prop := Forall (λ c, surrogate c = false) s.

(** The content of the output file after [f.write(document)]. *)
Definition stored (document : str) : str :=
  if decide (encodable document) then document else [].

(** Nothing that goes into the document of a run has a lone surrogate:
    no name of a file of the list, no text of such a file and, in the Book
    variant, not the date of the header. *)
Definition book_encodable (w : world) : Prop :=
  Forall encodable (book_files w)
  ∧ Forall (λ f, encodable (book_text w f)) (book_files w)
  ∧ encodable (default (ustr "N/A") (output_mtime w)).

Definition simple_encodable (w : world) : Prop :=
  Forall encodable (simple_files w)
  ∧ Forall (λ p, encodable (simple_text w p)) (simple_files w).

(** ** Sample environments *)

(** An engine that reads a heading and a paragraph from the preprocessed
    rasters and less from the original image. *)
Definition demo_tesseract (img : image) (l : lang) (m : psm) : result str :=
  match img, l, m with
  | Variant _ _, _, _ =>
      Ok (ustr "Hello" ++ [Py.NL; Py.NL; Py.NL] ++ ustr "World ")
  | Original _, tha_eng, psm6 => Ok (ustr " Hello ")
  | Original _, tha_eng, psm3 => Ok (ustr "Hello World!!")
  | Original _, eng, _ => Ok (ustr "Hi")
  end.

(** A folder with two images and a text file, everything readable. *)
Definition demo_world : world :=
  {| cv2_pipeline := λ _ _, Ok ();
     pil_open := λ _, Ok ();
     tesseract := demo_tesseract;
     read_utf8 := λ _, ReadOk (ustr "Hello" ++ [Py.NL] ++ ustr "World");
     read_latin1 := λ _, Raise [];
     listdir := [ustr "b.png"; ustr "A.png"; ustr "c.txt"];
     glob_dirname := ustr "/scans";
     glob_found := ∅;
     book_folder := ustr "Book";
     book_exists := true;
     output_mtime := None |}.

(** The same engine, failing on every preprocessed raster. *)
Definition failing_tesseract (img : image) (l : lang) (m : psm)
  : result str :=
  match img with
  | Variant _ _ => Raise (ustr "TesseractError")
  | _ => demo_tesseract img l m
  end.

Definition failing_world : world :=
  {| cv2_pipeline := λ _ _, Ok ();
     pil_open := λ _, Ok ();
     tesseract := failing_tesseract;
     read_utf8 := λ _, ReadOk [];
     read_latin1 := λ _, Raise [];
     listdir := [ustr "a.png"];
     glob_dirname := ustr "/scans";
     glob_found := ∅;
     book_folder := ustr "Book";
     book_exists := true;
     output_mtime := None |}.


(** Three images, the second of which cannot be decoded. *)
Definition corrupt_world : world :=
  {| cv2_pipeline := λ _ p,
       if bool_decide (ustr "bad.png" `suffix_of` p)
       then Raise (ustr "'NoneType' object has no attribute 'shape'")
       else Ok ();
     pil_open := λ _, Ok ();
     tesseract := demo_tesseract;
     read_utf8 := λ _, ReadOk [];
     read_latin1 := λ _, Raise [];
     listdir := [ustr "c.png"; ustr "bad.png"; ustr "a.png"];
     glob_dirname := ustr "/scans";
     glob_found := ∅;
     book_folder := ustr "Book";
     book_exists := true;
     output_mtime := None |}.

(** One image in which the engine finds nothing but blanks. *)
Definition blank_world : world :=
  {| cv2_pipeline := λ _ _, Ok ();
     pil_open := λ _, Ok ();
     tesseract := λ _ _ _, Ok (ustr "  " ++ [Py.NL]);
     read_utf8 := λ _, ReadOk [];
     read_latin1 := λ _, Raise [];
     listdir := [ustr "a.png"];
     glob_dirname := ustr "/scans";
     glob_found := ∅;
     book_folder := ustr "Book";
     book_exists := true;
     output_mtime := None |}.

(** Text files of which [b.txt] is empty: with a file after it, and as the
    last file. *)
Definition gap_world : world :=
  {| cv2_pipeline := λ _ _, Ok ();
     pil_open := λ _, Ok ();
     tesseract := demo_tesseract;
     read_utf8 := λ p,
       if bool_decide (ustr "b.txt" `suffix_of` p) then ReadOk []
       else ReadOk (ustr "x");
     read_latin1 := λ _, Raise [];
     listdir := [ustr "a.txt"; ustr "b.txt"; ustr "c.txt"];
     glob_dirname := ustr "/scans";
     glob_found := ∅;
     book_folder := ustr "Book";
     book_exists := true;
     output_mtime := None |}.

Definition trailing_world : world :=
  with_listdir gap_world [ustr "a.txt"; ustr "b.txt"].

(** One image in which the engine finds six blanks on the preprocessed
    raster and the words on the original. *)
Definition blanks_world : world :=
  {| cv2_pipeline := λ _ _, Ok ();
     pil_open := λ _, Ok ();
     tesseract := λ img l _,
       match img, l with
       | Variant _ _, _ => Ok (ustr "      ")
       | Original _, tha_eng => Ok (ustr "ab")
       | Original _, eng => Ok (ustr "a")
       end;
     read_utf8 := λ _, ReadOk [];
     read_latin1 := λ _, Raise [];
     listdir := [ustr "a.png"];
     glob_dirname := ustr "/scans";
     glob_found := ∅;
     book_folder := ustr "Book";
     book_exists := true;
     output_mtime := None |}.


(** * Properties *)

Section max_key.
Context {A : Type} (key : A → nat).

Lemma max_from_spec best l :
  let r := Py.max_from key best l in
  (∀ y, y ∈ best :: l → key y ≤ key r)
  ∧ ((r = best ∧ ∀ y, y ∈ l → key y ≤ key best)
     ∨ ∃ i, l !! i = Some r ∧ key best < key r
            ∧ ∀ j y, j < i → l !! j = Some y → key y < key r).
Proof.
  revert best. induction l as [|x l IH]; intros best; simpl.
  - split; [|left; split; [done|]]; intros y Hy.
    + apply list_elem_of_singleton in Hy as ->. lia.
    + by apply elem_of_nil in Hy.
  - destruct (Nat.ltb_spec (key best) (key x)) as [Hlt|Hge].
    + destruct (IH x) as [Hall Hpos]. split.
      * intros y [->|Hy]%elem_of_cons; [|by apply Hall].
        pose proof (Hall x (list_elem_of_here _ _)). lia.
      * right. destruct Hpos as [[Hr Hle]|(i & Hi & Hk & Hbefore)].
        -- exists 0. rewrite Hr. split_and!; [done|done|]. intros; lia.
        -- exists (S i). split_and!; [done|lia|].
           intros [|j] y Hj Hy; simpl in Hy.
           ++ injection Hy as <-. lia.
           ++ apply (Hbefore j); [lia|done].
    + destruct (IH best) as [Hall Hpos]. split.
      * intros y [->|[->|Hy]%elem_of_cons]%elem_of_cons.
        -- apply Hall, list_elem_of_here.
        -- pose proof (Hall best (list_elem_of_here _ _)). lia.
        -- by apply Hall, list_elem_of_further.
      * destruct Hpos as [[Hr Hle]|(i & Hi & Hk & Hbefore)].
        -- left. split; [done|].
           intros y [->|Hy]%elem_of_cons; [lia|by apply Hle].
        -- right. exists (S i). split_and!; [done|done|].
           intros [|j] y Hj Hy; simpl in Hy.
           ++ injection Hy as <-. lia.
           ++ apply (Hbefore j); [lia|done].
Qed.

Lemma max_key_stable l x : Py.max_key key l = Some x → stable_max key l x.
Proof.
  destruct l as [|a l]; [done|]. simpl. intros [= <-].
  destruct (max_from_spec a l) as [Hall [[Hr _]|(i & Hi & Hk & Hbefore)]].
  - exists 0. rewrite Hr. split_and!; [done| |intros; lia].
    intros y Hy. rewrite <-Hr. by apply Hall.
  - exists (S i). split_and!; [done|done|].
    intros [|j] y Hj Hy; simpl in Hy.
    + injection Hy as <-. lia.
    + apply (Hbefore j); [lia|done].
Qed.

Lemma max_key_is_Some l : l ≠ [] → is_Some (Py.max_key key l).
Proof. destruct l; [done|]. by eexists. Qed.

End max_key.

Section newline_collapse.

Example re_sub_newlines_ex :
  re_sub_newlines
    (ustr "a" ++ [10; 10; 10; 10] ++ ustr "b" ++ [10; 10] ++ ustr "c"
       ++ [10; 10; 10])%N
  = (ustr "a" ++ [10; 10] ++ ustr "b" ++ [10; 10] ++ ustr "c" ++ [10; 10])%N.
Proof. reflexivity. Qed.

Lemma newline_run_0 c s : c ≠ Py.NL → newline_run (c :: s) = 0.
Proof. intros Hc. simpl. by destruct (N.eqb_spec c Py.NL). Qed.

Lemma newline_run_S s : newline_run (Py.NL :: s) = S (newline_run s).
Proof. done. Qed.

Lemma newline_run_pos c s : 0 < newline_run (c :: s) → c = Py.NL.
Proof. simpl. destruct (N.eqb_spec c Py.NL); [done|lia]. Qed.

Lemma newline_run_split s :
  s = replicate (newline_run s) Py.NL ++ drop (newline_run s) s.
Proof.
  induction s as [|c s IH]; [done|]. simpl.
  destruct (N.eqb_spec c Py.NL) as [->|]; [|done]. simpl. by f_equal.
Qed.

Lemma newline_run_drop s : newline_run (drop (newline_run s) s) = 0.
Proof.
  induction s as [|c s IH]; [done|]. simpl.
  destruct (N.eqb_spec c Py.NL) as [->|Hc]; [done|]. by apply newline_run_0.
Qed.

Lemma re_sub_newlines_short c s :
  newline_run (c :: s) < 3 →
  re_sub_newlines (c :: s) = c :: re_sub_newlines s.
Proof.
  intros Hlt. simp re_sub_newlines.
  destruct (le_lt_dec 3 (newline_run (c :: s))); [lia|done].
Qed.

Lemma re_sub_newlines_long s :
  3 ≤ newline_run s →
  re_sub_newlines s
  = Py.NL :: Py.NL :: re_sub_newlines (drop (newline_run s) s).
Proof.
  intros Hge. destruct s as [|c s]; [simpl in Hge; lia|].
  simp re_sub_newlines.
  destruct (le_lt_dec 3 (newline_run (c :: s))); [done|lia].
Qed.

(** Scanning position by position: either a long run starts here, or one
    character is copied. *)
Lemma re_sub_newlines_ind (P : str → str → Prop) :
  P [] [] →
  (∀ s, 3 ≤ newline_run s →
        P (drop (newline_run s) s)
          (re_sub_newlines (drop (newline_run s) s)) →
        P s (Py.NL :: Py.NL :: re_sub_newlines (drop (newline_run s) s))) →
  (∀ c s, newline_run (c :: s) < 3 →
          P s (re_sub_newlines s) → P (c :: s) (c :: re_sub_newlines s)) →
  ∀ s, P s (re_sub_newlines s).
Proof.
  intros Hnil Hlong Hshort s.
  remember (length s) as n eqn:Hn. revert s Hn.
  induction n as [n IH] using lt_wf_ind. intros s ->.
  destruct s as [|c s]; [by simp re_sub_newlines|].
  destruct (le_lt_dec 3 (newline_run (c :: s))) as [Hge|Hlt].
  - rewrite re_sub_newlines_long by done. apply Hlong; [done|].
    eapply IH; [|done]. rewrite length_drop. simpl length. lia.
  - rewrite re_sub_newlines_short by done. apply Hshort; [done|].
    eapply IH; [|done]. simpl. lia.
Qed.

Lemma newline_run_re_sub s :
  newline_run (re_sub_newlines s) = newline_run s `min` 2.
Proof.
  apply (re_sub_newlines_ind (λ s r, newline_run r = newline_run s `min` 2));
    [done|..].
  - intros s' Hge IH. rewrite !newline_run_S, IH, newline_run_drop. lia.
  - intros c s' Hlt IH. revert Hlt. simpl.
    destruct (N.eqb_spec c Py.NL); [|done]. rewrite IH. lia.
Qed.

(** The scanner leaves a text without long runs as it is. *)
Lemma re_sub_newlines_fixed s : no_long_run s → re_sub_newlines s = s.
Proof.
  induction s as [|c s IH]; intros Hs; [by simp re_sub_newlines|].
  rewrite re_sub_newlines_short by apply (Hs 0).
  f_equal. apply IH. intros i. apply (Hs (S i)).
Qed.

Lemma no_long_run_cons c s :
  newline_run (c :: s) < 3 → no_long_run s → no_long_run (c :: s).
Proof. intros Hc Hs [|i]; [done|apply Hs]. Qed.

Lemma re_sub_newlines_no_long_run s : no_long_run (re_sub_newlines s).
Proof.
  apply (re_sub_newlines_ind (λ _ r, no_long_run r)).
  - intros i. rewrite drop_nil. simpl. lia.
  - intros s' Hge IH.
    assert (newline_run (re_sub_newlines (drop (newline_run s') s')) = 0)
      as H0 by (rewrite newline_run_re_sub, newline_run_drop; lia).
    apply no_long_run_cons; [rewrite !newline_run_S; lia|].
    apply no_long_run_cons; [rewrite newline_run_S; lia|done].
  - intros c s' Hlt IH. apply no_long_run_cons; [|done].
    revert Hlt. simpl. destruct (N.eqb_spec c Py.NL); [|lia].
    rewrite newline_run_re_sub. lia.
Qed.

Lemma pieces_no_newlines s :
  newline_run s = 0 → ∀ n ps, pieces s ≠ Newlines n :: ps.
Proof.
  destruct s as [|c s]; [done|]. simpl.
  by destruct (N.eqb_spec c Py.NL).
Qed.

Lemma pieces_run s :
  0 < newline_run s →
  pieces s = Newlines (newline_run s) :: pieces (drop (newline_run s) s).
Proof.
  induction s as [|c s IH]; [simpl; lia|]. intros Hpos.
  apply newline_run_pos in Hpos as ->. rewrite newline_run_S.
  change (pieces (Py.NL :: s)) with
    (match pieces s with
     | Newlines n :: ps => Newlines (S n) :: ps
     | ps => Newlines 1 :: ps
     end).
  destruct (newline_run s) as [|m] eqn:Hrun.
  - pose proof (pieces_no_newlines s Hrun) as Hne. change (drop 1 (Py.NL :: s)) with s.
    destruct (pieces s) as [|[n|c] ps] eqn:E; [done| |done].
    by destruct (Hne n ps).
  - rewrite IH by lia. done.
Qed.

Lemma collapse_runs_short c s :
  newline_run (c :: s) < 3 → collapse_runs (c :: s) = c :: collapse_runs s.
Proof.
  intros Hlt. destruct (decide (c = Py.NL)) as [->|Hc].
  - rewrite newline_run_S in Hlt. unfold collapse_runs.
    rewrite (pieces_run (Py.NL :: s)) by (rewrite newline_run_S; lia).
    rewrite newline_run_S. simpl drop.
    destruct (newline_run s) as [|m] eqn:Hrun.
    + by rewrite drop_0.
    + rewrite (pieces_run s) by lia. rewrite Hrun.
      rewrite !fmap_cons. simpl.
      destruct m as [|m]; [done|lia].
  - unfold collapse_runs. simpl.
    by destruct (N.eqb_spec c Py.NL).
Qed.

Lemma collapse_runs_long s :
  3 ≤ newline_run s →
  collapse_runs s
  = Py.NL :: Py.NL :: collapse_runs (drop (newline_run s) s).
Proof.
  intros Hge. unfold collapse_runs. rewrite (pieces_run s) by lia.
  change (mjoin (render ∘ squeeze <$> Newlines ?n :: ?ps))
    with (render (squeeze (Newlines n)) ++ mjoin (render ∘ squeeze <$> ps)).
  unfold squeeze. by rewrite (leb_correct 3 _ Hge).
Qed.

(** The scanner computes the rule as the specification words it. *)
Lemma re_sub_newlines_collapse_runs s : re_sub_newlines s = collapse_runs s.
Proof.
  apply (re_sub_newlines_ind (λ s r, r = collapse_runs s)); [done|..].
  - intros s' Hge ->. by rewrite <-collapse_runs_long.
  - intros c s' Hlt ->. by rewrite <-collapse_runs_short.
Qed.

End newline_collapse.

(** ** Reasoning about computations *)

Section monad.
Context {A B : Type}.

Lemma bind_Ok (t : list event) (a : A) (f : A → M B) :
  ((t, Ok a) : M A) ≫= f = (t ++ trace (f a), outcome (f a)).
Proof. unfold mbind, M_bind, trace, outcome. by destruct (f a). Qed.

Lemma bind_Raise (t : list event) (e : str) (f : A → M B) :
  ((t, Raise e) : M A) ≫= f = (t, Raise e).
Proof. done. Qed.

Lemma M_eta (m : M A) : m = (trace m, outcome m).
Proof. by destruct m. Qed.

Lemma trace_bind_Ok (m : M A) (a : A) (f : A → M B) :
  outcome m = Ok a → trace (m ≫= f) = trace m ++ trace (f a).
Proof.
  destruct m as [t r]. intros Hr. simpl in Hr. subst r.
  by rewrite bind_Ok.
Qed.

Lemma outcome_bind_Ok (m : M A) (a : A) (f : A → M B) :
  outcome m = Ok a → outcome (m ≫= f) = outcome (f a).
Proof.
  destruct m as [t r]. intros Hr. simpl in Hr. subst r.
  by rewrite bind_Ok.
Qed.

End monad.

Lemma try_except_Ok {A} (body : M A) (handler : str → M A) a :
  outcome body = Ok a → try_except body handler = (trace body, Ok a).
Proof. destruct body as [t r]. simpl. by intros ->. Qed.

Lemma try_except_Raise {A} (body : M A) (handler : str → M A) e :
  outcome body = Raise e →
  try_except body handler
  = (trace body ++ trace (handler e), outcome (handler e)).
Proof.
  destruct body as [t r]. simpl. intros ->.
  unfold trace, outcome. by destruct (handler e).
Qed.

Lemma invocations_app t1 t2 :
  invocations (t1 ++ t2) = invocations t1 ++ invocations t2.
Proof. apply List.filter_app. Qed.

Lemma writes_app t1 t2 : writes (t1 ++ t2) = writes t1 ++ writes t2.
Proof. apply omap_app. Qed.


Section totality.
Context (w : world).

(** Both extraction functions catch every exception of their body. *)
Lemma extract_text_with_layout_Ok image_path :
  ∃ c, outcome (extract_text_with_layout w image_path) = Ok c.
Proof.
  unfold extract_text_with_layout.
  destruct (layout_body w image_path) as [t [c|e]]; simpl; eauto.
Qed.

Lemma extract_text_from_image_Ok image_path :
  ∃ c, outcome (extract_text_from_image w image_path) = Ok c.
Proof.
  unfold extract_text_from_image.
  destruct (simple_body w image_path) as [t [c|e]]; simpl; eauto.
Qed.

Lemma read_text_file_Ok file_path :
  ∃ c, outcome (read_text_file w file_path) = Ok c.
Proof.
  unfold read_text_file.
  destruct (read_utf8 w file_path); simpl; eauto.
  destruct (read_latin1 w file_path); simpl; eauto.
Qed.

Lemma book_content_Ok filename :
  ∃ c, outcome (book_content w filename) = Ok c.
Proof.
  unfold book_content. destruct (classify filename).
  - destruct (extract_text_with_layout_Ok (path_join (book_folder w) filename))
      as [c Hc].
    exists c. by rewrite (outcome_bind_Ok _ ()).
  - destruct (read_text_file_Ok (path_join (book_folder w) filename))
      as [c Hc].
    exists c. by rewrite (outcome_bind_Ok _ ()).
  - by exists [].
Qed.

End totality.

Section pages_facts.
Context (w : world).

Lemma book_step_outcome total idx f acc :
  outcome (book_step w total idx f acc)
  = Ok (acc ++ (pages (book_text w) idx [f] ≫= book_block)).
Proof.
  unfold book_step, book_text, value. simpl pages.
  destruct (book_content_Ok w f) as [c Hc].
  rewrite (outcome_bind_Ok _ ()) by done.
  rewrite (outcome_bind_Ok _ c) by done. rewrite Hc.
  destruct c as [|x c]; simpl.
  - by rewrite app_nil_r.
  - done.
Qed.

Lemma pages_cons text idx f files :
  pages text idx (f :: files)
  = pages text idx [f] ++ pages text (S idx) files.
Proof. simpl. by destruct (text f). Qed.

Lemma book_loop_outcome total files : ∀ idx acc,
  outcome (book_loop w total idx files acc)
  = Ok (acc ++ (pages (book_text w) idx files ≫= book_block)).
Proof.
  induction files as [|f files IH]; intros idx acc.
  - simpl. by rewrite app_nil_r.
  - cbn [book_loop].
    rewrite (outcome_bind_Ok _ _ _ (book_step_outcome total idx f acc)).
    rewrite IH, (pages_cons _ _ f files), bind_app. by rewrite (assoc_L (++)).
Qed.

Lemma simple_step_outcome total idx p acc :
  outcome (simple_step w total idx p acc)
  = Ok (acc ++ (pages (simple_text w) idx [p] ≫= simple_block)).
Proof.
  unfold simple_step, simple_text, value. simpl pages.
  destruct (extract_text_from_image_Ok w p) as [c Hc].
  rewrite (outcome_bind_Ok _ ()) by done.
  rewrite (outcome_bind_Ok _ c) by done. rewrite Hc.
  destruct c as [|x c]; simpl.
  - by rewrite app_nil_r.
  - done.
Qed.

Lemma simple_loop_outcome total files : ∀ idx acc,
  outcome (simple_loop w total idx files acc)
  = Ok (acc ++ (pages (simple_text w) idx files ≫= simple_block)).
Proof.
  induction files as [|f files IH]; intros idx acc.
  - simpl. by rewrite app_nil_r.
  - cbn [simple_loop].
    rewrite (outcome_bind_Ok _ _ _ (simple_step_outcome total idx f acc)).
    rewrite IH, (pages_cons _ _ f files), bind_app. by rewrite (assoc_L (++)).
Qed.

End pages_facts.

(** ** The calls of one file *)

Ltac run_world w :=
  repeat (first
    [ match goal with
      | |- context [cv2_pipeline w ?r ?p] =>
          destruct (cv2_pipeline w r p) as [[]|?] eqn:?
      | |- context [pil_open w ?p] =>
          destruct (pil_open w p) as [[]|?] eqn:?
      | |- context [tesseract w ?i ?l ?m] =>
          destruct (tesseract w i l m) as [?|?] eqn:?
      end ]; cbn).

Section bodies.
Context (w : world).

Lemma layout_body_prefix p :
  trace (layout_body w p) `prefix_of` book_triples p.
Proof.
  unfold layout_body, preprocess_for_high_accuracy, preprocess, Image_open,
    image_to_string, book_triples.
  cbn. run_world w; by eexists.
Qed.

Lemma simple_body_prefix p :
  trace (simple_body w p) `prefix_of` simple_triples p.
Proof.
  unfold simple_body, preprocess_image, preprocess, Image_open,
    image_to_string, simple_triples.
  cbn. run_world w; by eexists.
Qed.

Lemma answers_book p results :
  answers w (book_triples p) results →
  ∃ t1 t2 t3 t4,
    results = [t1; t2; t3; t4]
    ∧ tesseract w (Original p) tha_eng psm6 = Ok t1
    ∧ tesseract w (Variant HighAccuracy p) tha_eng psm6 = Ok t2
    ∧ tesseract w (Original p) tha_eng psm3 = Ok t3
    ∧ tesseract w (Original p) eng psm6 = Ok t4.
Proof.
  unfold answers, book_triples.
  intros (t1 & ? & H1 & (t2 & ? & H2 & (t3 & ? & H3 & (t4 & ? & H4
    & ->%Forall2_nil_inv_l & ->)%Forall2_cons_inv_l
    & ->)%Forall2_cons_inv_l & ->)%Forall2_cons_inv_l
    & ->)%Forall2_cons_inv_l.
  by exists t1, t2, t3, t4.
Qed.

Lemma answers_simple p results :
  answers w (simple_triples p) results →
  ∃ t1 t2 t3,
    results = [t1; t2; t3]
    ∧ tesseract w (Variant DefaultRecipe p) tha_eng psm6 = Ok t1
    ∧ tesseract w (Original p) tha_eng psm6 = Ok t2
    ∧ tesseract w (Original p) eng psm6 = Ok t3.
Proof.
  unfold answers, simple_triples.
  intros (t1 & ? & H1 & (t2 & ? & H2 & (t3 & ? & H3
    & ->%Forall2_nil_inv_l & ->)%Forall2_cons_inv_l
    & ->)%Forall2_cons_inv_l & ->)%Forall2_cons_inv_l.
  by exists t1, t2, t3.
Qed.

(** When nothing raises, every call is made and the text is computed
    from all the answers. *)
Lemma layout_body_success p results :
  cv2_pipeline w HighAccuracy p = Ok () →
  pil_open w p = Ok () →
  answers w (book_triples p) results →
  ∃ best,
    select_layout results = Some best
    ∧ layout_body w p
      = (book_triples p, Ok (re_sub_newlines (Py.strip best))).
Proof.
  intros Hcv Hopen (t1 & t2 & t3 & t4 & -> & H1 & H2 & H3 & H4)%answers_book.
  eexists. split; [done|].
  unfold layout_body, preprocess_for_high_accuracy, preprocess, Image_open,
    image_to_string. cbn.
  by rewrite Hcv, Hopen; cbn; rewrite H1; cbn; rewrite H2; cbn;
    rewrite H3; cbn; rewrite H4.
Qed.

Lemma simple_body_success p texts :
  cv2_pipeline w DefaultRecipe p = Ok () →
  pil_open w p = Ok () →
  answers w (simple_triples p) texts →
  ∃ best,
    select_simple texts = Some best
    ∧ simple_body w p = (simple_triples p, Ok (Py.strip best)).
Proof.
  intros Hcv Hopen (t1 & t2 & t3 & -> & H1 & H2 & H3)%answers_simple.
  eexists. split; [done|].
  unfold simple_body, preprocess_image, preprocess, Image_open,
    image_to_string. cbn.
  by rewrite Hcv; cbn; rewrite H1; cbn; rewrite Hopen; cbn; rewrite H2; cbn;
    rewrite H3.
Qed.

End bodies.

(** ** Trimming *)

Section strip.

Lemma lstrip_spec s :
  ∃ pre, s = pre ++ Py.lstrip s ∧ all_space pre
         ∧ ∀ c, head (Py.lstrip s) = Some c → Py.isspace c = false.
Proof.
  induction s as [|c s (pre & Hs & Hpre & Hhead)]; simpl.
  - exists []. split_and!; [done|constructor|done].
  - destruct (Py.isspace c) eqn:Hc.
    + exists (c :: pre). split_and!; [by rewrite Hs at 1|by constructor|done].
    + exists []. split_and!; [done|constructor|]. by intros ? [= <-].
Qed.

Lemma rstrip_spec s :
  ∃ post, s = Py.rstrip s ++ post ∧ all_space post
          ∧ ∀ c, last (Py.rstrip s) = Some c → Py.isspace c = false.
Proof.
  destruct (lstrip_spec (reverse s)) as (pre & Hs & Hpre & Hhead).
  exists (reverse pre). unfold Py.rstrip. split_and!.
  - by rewrite <-reverse_app, <-Hs, reverse_involutive.
  - by apply Forall_reverse.
  - intros c. rewrite last_reverse. apply Hhead.
Qed.

(** [strip] cuts whitespace off both ends and changes nothing else. *)
Lemma strip_spec s :
  ∃ pre post,
    s = pre ++ Py.strip s ++ post ∧ all_space pre ∧ all_space post
    ∧ (∀ c, head (Py.strip s) = Some c → Py.isspace c = false)
    ∧ (∀ c, last (Py.strip s) = Some c → Py.isspace c = false).
Proof.
  destruct (lstrip_spec s) as (pre & Hs & Hpre & Hhead).
  destruct (rstrip_spec (Py.lstrip s)) as (post & Hl & Hpost & Hlast).
  exists pre, post. unfold Py.strip. split_and!; [|done|done| |done].
  - by rewrite <-Hl.
  - intros c Hc. apply Hhead. rewrite Hl.
    destruct (Py.rstrip (Py.lstrip s)); [done|by simplify_eq/=].
Qed.

End strip.

(** ** The events of a run *)

Section runs.
Context (w : world).

Lemma book_step_trace total idx f acc :
  trace (book_step w total idx f acc) = book_round w total idx f.
Proof.
  unfold book_step, book_round, book_text, value.
  destruct (book_content_Ok w f) as [c Hc].
  rewrite (trace_bind_Ok _ ()) by done.
  rewrite (trace_bind_Ok _ c) by done. rewrite Hc.
  by destruct c.
Qed.

Lemma book_loop_trace total files : ∀ idx acc,
  trace (book_loop w total idx files acc)
  = loop_trace (book_round w total) idx files.
Proof.
  induction files as [|f files IH]; intros idx acc; [done|].
  cbn [book_loop loop_trace].
  rewrite (trace_bind_Ok _ _ _ (book_step_outcome w total idx f acc)).
  by rewrite book_step_trace, IH.
Qed.

Lemma simple_step_trace total idx p acc :
  trace (simple_step w total idx p acc) = simple_round w total idx p.
Proof.
  unfold simple_step, simple_round, simple_text, value.
  destruct (extract_text_from_image_Ok w p) as [c Hc].
  rewrite (trace_bind_Ok _ ()) by done.
  rewrite (trace_bind_Ok _ c) by done. rewrite Hc.
  by destruct c.
Qed.

Lemma simple_loop_trace total files : ∀ idx acc,
  trace (simple_loop w total idx files acc)
  = loop_trace (simple_round w total) idx files.
Proof.
  induction files as [|f files IH]; intros idx acc; [done|].
  cbn [simple_loop loop_trace].
  rewrite (trace_bind_Ok _ _ _ (simple_step_outcome w total idx f acc)).
  by rewrite simple_step_trace, IH.
Qed.

(** The whole run of the Book variant, spelled out. *)
Lemma book_main_run :
  book_main w =
  if negb (book_exists w) then ([Print MsgNoBookFolder], Ok ())
  else
    let files := book_files w in
    let total := length files in
    match files with
    | [] => ([Print MsgNoFiles], Ok ())
    | _ =>
        let ps := pages (book_text w) 1 files in
        let final_text := mjoin (ps ≫= book_block) in
        ([Print (MsgFound total); Print MsgRule]
           ++ loop_trace (book_round w total) 1 files
           ++ match ps with
              | [] => [Print MsgNothingExtracted]
              | _ =>
                  [Write (book_header total (output_mtime w) ++ final_text);
                   Print MsgRule; Print MsgSaved; Print MsgStatsHeading;
                   Print (MsgStatFiles total);
                   Print (MsgStatChars (Py.len final_text));
                   Print (MsgStatLines (count_newlines final_text + 1));
                   Print MsgRule; Print MsgDone]
              end, Ok ())
    end.
Proof.
  unfold book_main. destruct (book_exists w); [|done]. cbn [negb].
  destruct (book_files w) as [|f files] eqn:Hfiles; [done|].
  cbv zeta. set (all := f :: files). set (total := length all).
  pose proof (book_loop_outcome w total all 1 []) as Hout.
  pose proof (book_loop_trace total all 1 []) as Htr.
  rewrite (M_eta (book_loop w total 1 all [])), Hout, Htr.
  change (print ?m) with (([Print m], Ok ()) : M unit).
  rewrite !bind_Ok. cbn [trace outcome fst snd]. rewrite app_nil_l.
  destruct (pages (book_text w) 1 all) as [|[[i g] c] ps] eqn:Hps; done.
Qed.

(** The whole run of the simple variant, spelled out. *)
Lemma simple_main_run :
  simple_main w =
  let files := simple_files w in
  let total := length files in
  match files with
  | [] => ([Print MsgNoFiles], Ok ())
  | _ =>
      let ps := pages (simple_text w) 1 files in
      let all_text := ps ≫= simple_block in
      ([Print (MsgFound total); Print MsgRule]
         ++ loop_trace (simple_round w total) 1 files
         ++ match ps with
            | [] => [Print MsgNothingExtracted]
            | _ =>
                [Write (join_lines all_text); Print MsgRule; Print MsgSaved;
                 Print (MsgLineTotal (length all_text)); Print MsgRule]
            end, Ok ())
  end.
Proof.
  unfold simple_main.
  destruct (simple_files w) as [|f files] eqn:Hfiles; [done|].
  cbv zeta. set (all := f :: files). set (total := length all).
  pose proof (simple_loop_outcome w total all 1 []) as Hout.
  pose proof (simple_loop_trace total all 1 []) as Htr.
  rewrite (M_eta (simple_loop w total 1 all [])), Hout, Htr.
  change (print ?m) with (([Print m], Ok ()) : M unit).
  rewrite !bind_Ok. cbn [trace outcome fst snd]. rewrite app_nil_l.
  destruct (pages (simple_text w) 1 all) as [|[[i g] c] ps] eqn:Hps; done.
Qed.

(** *** What the handling of one file can do *)

Lemma file_event_recognize t :
  Forall (λ ev, is_recognize ev = true) t →
  Forall (λ ev, file_event ev = true) t.
Proof. intros H. eapply Forall_impl; [done|]. by intros []. Qed.

Lemma prefix_recognize t calls :
  t `prefix_of` calls → Forall (λ ev, is_recognize ev = true) calls →
  Forall (λ ev, is_recognize ev = true) t.
Proof. intros [k ->] [??]%Forall_app. done. Qed.

Lemma layout_body_recognize p :
  Forall (λ ev, is_recognize ev = true) (trace (layout_body w p)).
Proof.
  eapply prefix_recognize; [apply layout_body_prefix|].
  by repeat constructor.
Qed.

Lemma simple_body_recognize p :
  Forall (λ ev, is_recognize ev = true) (trace (simple_body w p)).
Proof.
  eapply prefix_recognize; [apply simple_body_prefix|].
  by repeat constructor.
Qed.

Lemma extract_text_with_layout_events p :
  Forall (λ ev, file_event ev = true) (trace (extract_text_with_layout w p)).
Proof.
  unfold extract_text_with_layout.
  pose proof (file_event_recognize _ (layout_body_recognize p)) as Hb.
  destruct (layout_body w p) as [t [c|e]]; [done|].
  cbn. apply Forall_app. split; [done|]. by repeat constructor.
Qed.

Lemma extract_text_from_image_events p :
  Forall (λ ev, file_event ev = true) (trace (extract_text_from_image w p)).
Proof.
  unfold extract_text_from_image.
  pose proof (file_event_recognize _ (simple_body_recognize p)) as Hb.
  destruct (simple_body w p) as [t [c|e]]; [done|].
  cbn. apply Forall_app. split; [done|]. by repeat constructor.
Qed.

Lemma read_text_file_events p :
  Forall (λ ev, file_event ev = true) (trace (read_text_file w p)).
Proof.
  unfold read_text_file. destruct (read_utf8 w p); cbn.
  - constructor.
  - destruct (read_latin1 w p); cbn; by repeat constructor.
  - by repeat constructor.
Qed.

Lemma book_content_events f :
  Forall (λ ev, file_event ev = true) (trace (book_content w f)).
Proof.
  unfold book_content. destruct (classify f).
  - destruct (extract_text_with_layout_Ok w (path_join (book_folder w) f))
      as [c Hc].
    rewrite (M_eta (extract_text_with_layout w _)), Hc.
    change (print ?m) with (([Print m], Ok ()) : M unit).
    rewrite !bind_Ok. cbn. constructor; [done|].
    apply extract_text_with_layout_events.
  - destruct (read_text_file_Ok w (path_join (book_folder w) f)) as [c Hc].
    rewrite (M_eta (read_text_file w _)), Hc.
    change (print ?m) with (([Print m], Ok ()) : M unit).
    rewrite !bind_Ok. cbn. constructor; [done|].
    apply read_text_file_events.
  - constructor.
Qed.

Lemma file_events_writes t :
  Forall (λ ev, file_event ev = true) t → writes t = [].
Proof.
  induction 1 as [|ev t Hev _ IH]; [done|].
  destruct ev as [| [] |]; try done; apply IH.
Qed.

Lemma file_events_processed t :
  Forall (λ ev, file_event ev = true) t → processed t = [].
Proof.
  induction 1 as [|ev t Hev _ IH]; [done|].
  destruct ev as [| [] |]; try done; apply IH.
Qed.

End runs.

(** ** Loops and pages *)

Section loops.
Context (w : world).

Lemma processed_app t1 t2 :
  processed (t1 ++ t2) = processed t1 ++ processed t2.
Proof. apply omap_app. Qed.

Lemma book_round_writes total idx f : writes (book_round w total idx f) = [].
Proof.
  unfold book_round. cbn. rewrite writes_app.
  rewrite (file_events_writes _ (book_content_events w f)).
  by destruct (book_text w f).
Qed.

Lemma simple_round_writes total idx p :
  writes (simple_round w total idx p) = [].
Proof.
  unfold simple_round. cbn. rewrite writes_app.
  rewrite (file_events_writes _ (extract_text_from_image_events w p)).
  by destruct (simple_text w p).
Qed.

Lemma book_round_processed total idx f :
  processed (book_round w total idx f) = [f].
Proof.
  unfold book_round. cbn. rewrite processed_app.
  rewrite (file_events_processed _ (book_content_events w f)).
  by destruct (book_text w f).
Qed.

Lemma simple_round_processed total idx p :
  processed (simple_round w total idx p) = [Path_name p].
Proof.
  unfold simple_round. cbn. rewrite processed_app.
  rewrite (file_events_processed _ (extract_text_from_image_events w p)).
  by destruct (simple_text w p).
Qed.

Lemma loop_trace_writes step files :
  (∀ idx f, writes (step idx f) = []) →
  ∀ idx, writes (loop_trace step idx files) = [].
Proof.
  intros Hstep. induction files as [|f files IH]; intros idx; [done|].
  simpl. by rewrite writes_app, Hstep, IH.
Qed.

Lemma loop_trace_processed step name files :
  (∀ idx f, processed (step idx f) = [name f]) →
  ∀ idx, processed (loop_trace step idx files) = name <$> files.
Proof.
  intros Hstep. induction files as [|f files IH]; intros idx; [done|].
  simpl. by rewrite processed_app, Hstep, IH.
Qed.

Lemma loop_trace_lookup step files i f :
  files !! i = Some f →
  ∀ idx, ∃ t1 t2,
    loop_trace step idx files = t1 ++ step (idx + i) f ++ t2.
Proof.
  revert i. induction files as [|g files IH]; intros [|i] Hi idx;
    simplify_eq/=.
  - exists [], (loop_trace step (S idx) files). by rewrite Nat.add_0_r.
  - destruct (IH i Hi (S idx)) as (t1 & t2 & ->).
    exists (step idx g ++ t1), t2.
    by rewrite <-(assoc_L (++)), Nat.add_succ_r.
Qed.

End loops.

Section page_facts.
Context (text : str → str).

Lemma pages_elem n f c files : ∀ idx,
  (n, f, c) ∈ pages text idx files
  ↔ ∃ i, files !! i = Some f ∧ n = idx + i ∧ c = text f ∧ c ≠ [].
Proof.
  induction files as [|g files IH]; intros idx.
  - simpl. split; [by intros ?%elem_of_nil|by intros (i & ? & _)].
  - rewrite pages_cons, elem_of_app, IH. split.
    + intros [Hin|(i & Hi & -> & -> & Hne)].
      * simpl in Hin. destruct (text g) as [|x c'] eqn:Hg.
        { by apply elem_of_nil in Hin. }
        apply list_elem_of_singleton in Hin. injection Hin as -> -> ->.
        exists 0. rewrite Nat.add_0_r, Hg. by split_and!.
      * exists (S i). split_and!; [done|lia|done|done].
    + intros ([|i] & Hi & -> & -> & Hne); simplify_eq/=.
      * left. destruct (text f) as [|x c'] eqn:Hf; [done|].
        rewrite Nat.add_0_r. apply list_elem_of_here.
      * right. exists i. split_and!; [done|lia|done|done].
Qed.


(** The ordinals of the pages: the positions of the files with text. *)
Lemma pages_ordinals_bounds n f c files idx :
  (n, f, c) ∈ pages text idx files → idx ≤ n < idx + length files.
Proof.
  intros (i & Hi%lookup_lt_Some & -> & _)%pages_elem. lia.
Qed.

Lemma pages_ordinals_increasing files : ∀ idx,
  StronglySorted lt ((λ p, p.1.1) <$> pages text idx files).
Proof.
  induction files as [|g files IH]; intros idx; [constructor|]. simpl.
  destruct (text g) eqn:Hg; [apply IH|].
  rewrite fmap_cons. constructor; [apply IH|].
  apply Forall_fmap, Forall_forall. intros [[k f] c] Hin.
  apply pages_ordinals_bounds in Hin. simpl. lia.
Qed.

Lemma pages_nil_iff files idx :
  pages text idx files = [] ↔ Forall (λ f, text f = []) files.
Proof.
  revert idx. induction files as [|g files IH]; intros idx; simpl.
  - split; [constructor|done].
  - rewrite Forall_cons. destruct (text g); [|by split; [|intros []]].
    rewrite IH. tauto.
Qed.

End page_facts.

(** The first page is that of the first file with text. *)
Lemma pages_first (text : str → str) files : ∀ idx n f c ps,
  pages text idx files = (n, f, c) :: ps →
  ∃ i, files !! i = Some f ∧ n = idx + i ∧ c = text f ∧ c ≠ []
       ∧ ∀ j g, j < i → files !! j = Some g → text g = [].
Proof.
  induction files as [|g files IH]; intros idx n f c ps; [done|].
  simpl. destruct (text g) as [|x t] eqn:Hg.
  - intros (i & Hi & -> & Hc & Hne & Hbefore)%IH.
    exists (S i). split_and!; [done|lia|done|done|].
    intros [|j] g' Hj Hg'; simplify_eq/=; [done|].
    apply (Hbefore j); [lia|done].
  - intros [= <- <- <- <-]. exists 0.
    split_and!; [done|lia|done|done|]. intros j g' Hj. lia.
Qed.

(** ** Order and discovery *)

Global Instance str_le_total : Total str_le.
Proof.
  intros a b. unfold str_le, str_lt.
  destruct (trichotomy lexico a b) as [Hab|[->|Hba]].
  - left. intros Hba. by apply (irreflexivity lexico a); trans b.
  - left. apply (irreflexivity lexico).
  - right. intros Hab. by apply (irreflexivity lexico a); trans b.
Qed.

Global Instance str_le_trans : Transitive str_le.
Proof.
  intros a b c Hab Hbc Hca. unfold str_le, str_lt in *.
  destruct (trichotomy lexico a b) as [Hlt|[->|Hlt]]; [|done..].
  apply Hbc. by trans a.
Qed.

Global Instance str_le_antisymm : AntiSymm (=) str_le.
Proof.
  intros a b Hab Hba. unfold str_le, str_lt in *.
  by destruct (trichotomy lexico a b) as [?|[?|?]].
Qed.

Section order.

(** [str_le] is the order "equal or lexicographically smaller". *)
Lemma str_le_alt a b : str_le a b ↔ a = b ∨ str_lt a b.
Proof.
  unfold str_le, str_lt. split.
  - intros Hba. destruct (trichotomy lexico a b) as [?|[?|?]]; auto. done.
  - intros [->|Hab] Hba.
    + by apply (irreflexivity lexico) in Hba.
    + by apply (irreflexivity lexico a); trans b.
Qed.

Lemma sort_sorted l : Sorted str_le (sort l).
Proof. apply (Sorted_merge_sort str_le). Qed.

Lemma sort_perm l : sort l ≡ₚ l.
Proof. apply merge_sort_Permutation. Qed.


Lemma sorted_sort l : Sorted str_le l → sort l = l.
Proof.
  intros Hl. apply (Sorted_unique str_le); [apply sort_sorted|done|].
  apply sort_perm.
Qed.

Lemma lexico_app (p a b : str) : lexico (p ++ a) (p ++ b) ↔ lexico a b.
Proof.
  induction p as [|x p IH]; [done|]. rewrite <-IH. simpl.
  change (lexico (x :: ?l1) (x :: ?l2)) with (lexico (x, l1) (x, l2)).
  unfold lexico at 1, prod_lexico. simpl. split.
  - intros [Hx|[_ ?]]; [|done]. by apply (irreflexivity lexico) in Hx.
  - intros ?. by right.
Qed.

Lemma str_le_app (p a b : str) : str_le (p ++ a) (p ++ b) ↔ str_le a b.
Proof. unfold str_le, str_lt. by rewrite lexico_app. Qed.

Lemma sort_fmap_app (p : str) l : sort ((p ++.) <$> l) = (p ++.) <$> sort l.
Proof.
  apply (Sorted_unique str_le); [apply sort_sorted| |].
  - eapply (Sorted_fmap _ str_le str_le); [|apply sort_sorted].
    intros a b. by rewrite str_le_app.
  - by rewrite !sort_perm.
Qed.







Lemma extend_all_bind (glob : str → list str) exts : ∀ files,
  extend_all glob files exts = files ++ (exts ≫= glob).
Proof.
  unfold extend_all. induction exts as [|ext exts IH]; intros files; simpl.
  - by rewrite app_nil_r.
  - by rewrite IH, (assoc_L (++)).
Qed.

End order.

Section discovery.
Context (w : world).

Lemma book_files_eq :
  book_files w
  = sort ((book_image_extensions ++ book_text_extensions) ≫= Path_glob w).
Proof.
  unfold book_files. cbv zeta.
  by rewrite !extend_all_bind, app_nil_l, bind_app.
Qed.


Lemma simple_files_eq :
  has_magic (glob_dirname w) = false →
  simple_files w = path_join (glob_dirname w) <$> sort (simple_names w).
Proof.
  intros Hplain.
  unfold simple_files, path_join. rewrite extend_all_bind, app_nil_l.
  rewrite <-sort_fmap_app. f_equal. unfold simple_names, glob_glob.
  rewrite Hplain.
  induction simple_image_extensions as [|ext exts IH]; [done|].
  cbn [mbind list_bind]. rewrite fmap_app, IH. reflexivity.
Qed.

(** The list of the simple variant when the directory part is a pattern. *)
Lemma simple_files_magic :
  has_magic (glob_dirname w) = true →
  simple_files w
  = sort (simple_image_extensions
            ≫= λ ext, filter (λ path, head (Path_name path) ≠ Some DOT
                                      ∧ fnmatch (Path_name path) ext = true)
                        (elements (glob_found w))).
Proof.
  intros Hmagic. unfold simple_files. rewrite extend_all_bind, app_nil_l.
  unfold glob_glob. by rewrite Hmagic.
Qed.



Lemma simple_files_elem p :
  has_magic (glob_dirname w) = false →
  p ∈ simple_files w
  ↔ ∃ n, p = path_join (glob_dirname w) n ∧ n ∈ simple_names w.
Proof.
  intros Hplain. rewrite simple_files_eq, list_elem_of_fmap by done.
  by setoid_rewrite sort_perm.
Qed.

End discovery.

Section listing.



End listing.

(** ** What a run writes and processes *)

Section outputs.
Context (w : world).

Lemma book_main_writes :
  writes (trace (book_main w)) =
  if book_exists w then
    match pages (book_text w) 1 (book_files w) with
    | [] => []
    | ps => [book_header (length (book_files w)) (output_mtime w)
               ++ mjoin (ps ≫= book_block)]
    end
  else [].
Proof.
  rewrite book_main_run. destruct (book_exists w); [|done]. cbn [negb].
  destruct (book_files w) as [|f files] eqn:Hfiles; [done|].
  cbv zeta. cbn [trace fst]. rewrite !writes_app.
  rewrite (loop_trace_writes _ _ (book_round_writes w _)).
  by destruct (pages (book_text w) 1 (f :: files)).
Qed.

Lemma simple_main_writes :
  writes (trace (simple_main w)) =
  match pages (simple_text w) 1 (simple_files w) with
  | [] => []
  | ps => [join_lines (ps ≫= simple_block)]
  end.
Proof.
  rewrite simple_main_run.
  destruct (simple_files w) as [|f files] eqn:Hfiles; [done|].
  cbv zeta. cbn [trace fst]. rewrite !writes_app.
  rewrite (loop_trace_writes _ _ (simple_round_writes w _)).
  by destruct (pages (simple_text w) 1 (f :: files)).
Qed.

Lemma book_main_processed :
  processed (trace (book_main w))
  = if book_exists w then book_files w else [].
Proof.
  rewrite book_main_run. destruct (book_exists w); [|done]. cbn [negb].
  destruct (book_files w) as [|f files] eqn:Hfiles; [done|].
  cbv zeta. cbn [trace fst]. rewrite !processed_app.
  rewrite (loop_trace_processed _ id _ (book_round_processed w _)).
  rewrite list_fmap_id.
  destruct (pages (book_text w) 1 (f :: files)); simpl; by rewrite app_nil_r.
Qed.

Lemma simple_main_processed :
  processed (trace (simple_main w)) = Path_name <$> simple_files w.
Proof.
  rewrite simple_main_run.
  destruct (simple_files w) as [|f files] eqn:Hfiles; [done|].
  cbv zeta. cbn [trace fst]. rewrite !processed_app.
  rewrite (loop_trace_processed _ Path_name _ (simple_round_processed w _)).
  destruct (pages (simple_text w) 1 (f :: files)); simpl; by rewrite app_nil_r.
Qed.

End outputs.

(** ** Patterns and suffixes *)

Section suffixes.




Lemma fnmatch_star name lit :
  fnmatch name (STAR :: lit) = true ↔ ∃ stem, name = stem ++ lit.
Proof.
  unfold fnmatch. rewrite N.eqb_refl, bool_decide_eq_true. done.
Qed.





Lemma read_text_file_invocations w p :
  invocations (trace (read_text_file w p)) = [].
Proof.
  unfold read_text_file. destruct (read_utf8 w p); [done| |done].
  by destruct (read_latin1 w p).
Qed.



End suffixes.

(** ** Failures *)

Section failures.
Context (w : world).

Lemma extract_text_with_layout_raise p e :
  outcome (layout_body w p) = Raise e →
  extract_text_with_layout w p
  = (trace (layout_body w p) ++ [Print (MsgImageError p e)], Ok []).
Proof.
  intros He. unfold extract_text_with_layout.
  by rewrite (try_except_Raise _ _ e).
Qed.

Lemma extract_text_from_image_raise p e :
  outcome (simple_body w p) = Raise e →
  extract_text_from_image w p
  = (trace (simple_body w p) ++ [Print (MsgImageError p e)], Ok []).
Proof.
  intros He. unfold extract_text_from_image.
  by rewrite (try_except_Raise _ _ e).
Qed.

(** An image that cannot be decoded makes the body raise before any call
    to the engine. *)
Lemma layout_body_decode_error p e :
  cv2_pipeline w HighAccuracy p = Raise e → layout_body w p = ([], Raise e).
Proof.
  intros He. unfold layout_body, preprocess_for_high_accuracy, preprocess.
  cbn. by rewrite He.
Qed.

Lemma simple_body_decode_error p e :
  cv2_pipeline w DefaultRecipe p = Raise e → simple_body w p = ([], Raise e).
Proof.
  intros He. unfold simple_body, preprocess_image, preprocess.
  cbn. by rewrite He.
Qed.

(** Every file of the list has its round in the run. *)
Lemma book_main_round i f :
  book_exists w = true → book_files w !! i = Some f →
  ∃ t1 t2,
    trace (book_main w)
    = t1 ++ book_round w (length (book_files w)) (S i) f ++ t2.
Proof.
  intros Hex Hi. rewrite book_main_run, Hex. cbn [negb].
  destruct (book_files w) as [|g files] eqn:Hfiles; [done|].
  cbv zeta. cbn [trace fst].
  destruct (loop_trace_lookup (book_round w (length (g :: files)))
              (g :: files) i f Hi 1) as (t1 & t2 & ->).
  match goal with
  | |- ∃ t1' t2', ?a ++ (t1 ++ ?r ++ t2) ++ ?b = _ =>
      exists (a ++ t1), (t2 ++ b)
  end.
  by rewrite <-!(assoc_L (++)).
Qed.

Lemma simple_main_round i p :
  simple_files w !! i = Some p →
  ∃ t1 t2,
    trace (simple_main w)
    = t1 ++ simple_round w (length (simple_files w)) (S i) p ++ t2.
Proof.
  intros Hi. rewrite simple_main_run.
  destruct (simple_files w) as [|g files] eqn:Hfiles; [done|].
  cbv zeta. cbn [trace fst].
  destruct (loop_trace_lookup (simple_round w (length (g :: files)))
              (g :: files) i p Hi 1) as (t1 & t2 & ->).
  match goal with
  | |- ∃ t1' t2', ?a ++ (t1 ++ ?r ++ t2) ++ ?b = _ =>
      exists (a ++ t1), (t2 ++ b)
  end.
  by rewrite <-!(assoc_L (++)).
Qed.

Lemma book_main_found :
  book_exists w = true → book_files w ≠ [] →
  Print (MsgFound (length (book_files w))) ∈ trace (book_main w).
Proof.
  intros Hex Hne. rewrite book_main_run, Hex. cbn [negb].
  destruct (book_files w) as [|g files] eqn:Hfiles; [done|].
  apply list_elem_of_here.
Qed.

Lemma simple_main_found :
  simple_files w ≠ [] →
  Print (MsgFound (length (simple_files w))) ∈ trace (simple_main w).
Proof.
  intros Hne. rewrite simple_main_run.
  destruct (simple_files w) as [|g files] eqn:Hfiles; [done|].
  apply list_elem_of_here.
Qed.

End failures.

(** ** Listing order *)

Section listing_order.




End listing_order.

(** ** Ordinals *)

Section ordinals.

Lemma consecutive_tail x l : consecutive (x :: l) → consecutive l.
Proof. intros Hl i a b Ha Hb. by apply (Hl (S i)). Qed.

Lemma consecutive_seq x l :
  consecutive (x :: l) → x :: l = seq x (S (length l)).
Proof.
  revert x. induction l as [|y l IH]; intros x Hl; [done|].
  assert (y = S x) as -> by (by apply (Hl 0)).
  cbn [seq length]. f_equal. apply IH. by eapply consecutive_tail.
Qed.

(** A list of consecutive numbers skips nothing between two of its
    members. *)
Lemma consecutive_between l a m b :
  consecutive l → a ∈ l → b ∈ l → a < m < b → m ∈ l.
Proof.
  intros Hl Ha Hb Hm. destruct l as [|x l]; [by apply elem_of_nil in Ha|].
  rewrite (consecutive_seq x l Hl) in *.
  apply elem_of_seq in Ha, Hb. apply elem_of_seq. lia.
Qed.

Lemma ordinals_elem text n files idx :
  n ∈ ordinals (pages text idx files)
  ↔ ∃ i f, files !! i = Some f ∧ n = idx + i ∧ text f ≠ [].
Proof.
  unfold ordinals. rewrite list_elem_of_fmap. split.
  - intros ([[k f] c] & -> & (i & Hi & -> & -> & Hne)%pages_elem).
    by exists i, f.
  - intros (i & f & Hi & -> & Hne). exists (idx + i, f, text f).
    split; [done|]. apply pages_elem. by exists i.
Qed.

End ordinals.

(** ** Calls to the engine during a run *)

Section call_facts.

Lemma invocations_prints t :
  Forall (λ ev, is_recognize ev = false) t → invocations t = [].
Proof.
  induction 1 as [|ev t Hev _ IH]; [done|].
  unfold invocations in *. simpl. by rewrite Hev.
Qed.

Lemma invocations_recognize t :
  Forall (λ ev, is_recognize ev = true) t → invocations t = t.
Proof.
  induction 1 as [|ev t Hev _ IH]; [done|].
  unfold invocations in *. simpl. by rewrite Hev, IH.
Qed.

Lemma extract_text_with_layout_calls w p :
  invocations (trace (extract_text_with_layout w p)) `prefix_of` book_triples p.
Proof.
  unfold extract_text_with_layout.
  pose proof (layout_body_prefix w p) as Hpre.
  pose proof (layout_body_recognize w p) as Hrec.
  destruct (layout_body w p) as [t [c|e]]; cbn in *.
  - by rewrite invocations_recognize.
  - rewrite invocations_app, invocations_recognize by done.
    by rewrite app_nil_r.
Qed.

Lemma extract_text_from_image_calls w p :
  invocations (trace (extract_text_from_image w p))
    `prefix_of` simple_triples p.
Proof.
  unfold extract_text_from_image.
  pose proof (simple_body_prefix w p) as Hpre.
  pose proof (simple_body_recognize w p) as Hrec.
  destruct (simple_body w p) as [t [c|e]]; cbn in *.
  - by rewrite invocations_recognize.
  - rewrite invocations_app, invocations_recognize by done.
    by rewrite app_nil_r.
Qed.

Lemma book_round_calls w total idx f :
  invocations (book_round w total idx f) `prefix_of` book_calls w f.
Proof.
  unfold book_round, book_calls, book_content.
  change (invocations (Print ?m :: ?t)) with (invocations t).
  rewrite invocations_app.
  rewrite (invocations_prints [_]) by (by repeat constructor).
  rewrite app_nil_r. destruct (classify f).
  - destruct (extract_text_with_layout_Ok w (path_join (book_folder w) f))
      as [c Hc].
    rewrite (trace_bind_Ok _ ()) by done.
    apply extract_text_with_layout_calls.
  - destruct (read_text_file_Ok w (path_join (book_folder w) f)) as [c Hc].
    rewrite (trace_bind_Ok _ ()) by done. rewrite invocations_app.
    by rewrite read_text_file_invocations.
  - done.
Qed.

Lemma simple_round_calls w total idx p :
  invocations (simple_round w total idx p) `prefix_of` simple_triples p.
Proof.
  unfold simple_round.
  change (invocations (Print ?m :: ?t)) with (invocations t).
  rewrite invocations_app.
  rewrite (invocations_prints [_]) by (by repeat constructor).
  rewrite app_nil_r. apply extract_text_from_image_calls.
Qed.

(** The calls of a loop are those of its rounds. *)
Lemma loop_trace_calls step (calls : str → list event) files :
  (∀ idx f, invocations (step idx f) `prefix_of` calls f) →
  ∀ idx,
    length (invocations (loop_trace step idx files))
    ≤ sum_list (length ∘ calls <$> files)
    ∧ ∀ ev, ev ∈ invocations (loop_trace step idx files) →
            ∃ f, f ∈ files ∧ ev ∈ calls f.
Proof.
  intros Hstep. induction files as [|f files IH]; intros idx.
  - split; [done|]. by intros ev ?%elem_of_nil.
  - destruct (IH (S idx)) as [IHlen IHin].
    destruct (Hstep idx f) as [k Hk]. cbn [loop_trace].
    rewrite invocations_app, length_app. split.
    + rewrite fmap_cons. cbn [sum_list sum_list_with compose].
      rewrite Hk, length_app. unfold id.
      apply Nat.add_le_mono; [lia|exact IHlen].
    + intros ev [Hev|Hev]%elem_of_app.
      * exists f. split; [apply list_elem_of_here|].
        rewrite Hk. apply elem_of_app. by left.
      * destruct (IHin ev Hev) as (g & Hg & Hcalls).
        exists g. split; [by apply list_elem_of_further|done].
Qed.

Lemma sum_book_calls w files :
  sum_list (length ∘ book_calls w <$> files)
  = 4 * length (filter (λ f, classify f = KImage) files).
Proof.
  induction files as [|f files IH]; [done|].
  rewrite fmap_cons, filter_cons. cbn [sum_list sum_list_with compose].
  rewrite IH. unfold book_calls.
  destruct (classify f); case_decide; try done; simpl; lia.
Qed.

Lemma sum_simple_calls files :
  sum_list (length ∘ simple_triples <$> files) = 3 * length files.
Proof.
  induction files as [|f files IH]; [done|].
  rewrite fmap_cons. cbn [sum_list sum_list_with compose]. rewrite IH.
  simpl. lia.
Qed.

Lemma book_main_invocations w :
  invocations (trace (book_main w))
  = if book_exists w
    then invocations
           (loop_trace (book_round w (length (book_files w))) 1 (book_files w))
    else [].
Proof.
  rewrite book_main_run. destruct (book_exists w); [|done]. cbn [negb].
  destruct (book_files w) as [|g files] eqn:Hfiles; [done|].
  cbv zeta. cbn [trace fst]. rewrite !invocations_app.
  destruct (pages (book_text w) 1 (g :: files)); cbn; by rewrite app_nil_r.
Qed.

Lemma simple_main_invocations w :
  invocations (trace (simple_main w))
  = invocations
      (loop_trace (simple_round w (length (simple_files w))) 1
         (simple_files w)).
Proof.
  rewrite simple_main_run.
  destruct (simple_files w) as [|g files] eqn:Hfiles; [done|].
  cbv zeta. cbn [trace fst]. rewrite !invocations_app.
  destruct (pages (simple_text w) 1 (g :: files)); cbn; by rewrite app_nil_r.
Qed.







End call_facts.

(** * The claims *)

(** ** Selection *)

(** Each selector returns the earliest candidate that is greatest under its
    own measure: the trimmed length in the Book variant, the length as it is
    in the simple variant. *)
Lemma select_stable_max (results : list str) :
  results ≠ [] →
  ∃ x y,
    select_layout results = Some x ∧ stable_max trimmed_len results x
    ∧ select_simple results = Some y ∧ stable_max Py.len results y.
Proof.
  intros Hne.
  destruct (max_key_is_Some trimmed_len results Hne) as [x Hx].
  destruct (max_key_is_Some Py.len results Hne) as [y Hy].
  exists x, y. split_and!; [done| |done|]; by apply max_key_stable.
Qed.

(** C1, the defect: for an image on which the engine answers the three calls
    of the simple variant with six blanks, "ab" and "a", the candidate of
    greatest trimmed length is "ab", but the simple variant selects the six
    blanks, of which nothing is left after trimming: the text of the image
    is empty, the run reports that it found no text and writes nothing. The
    Book variant, which compares trimmed lengths, returns "ab" for the same
    image. *)
Theorem simple_variant_discards_text :
  answers blanks_world (simple_triples (ustr "/scans/a.png"))
    [ustr "      "; ustr "ab"; ustr "a"]
  ∧ stable_max trimmed_len [ustr "      "; ustr "ab"; ustr "a"] (ustr "ab")
  ∧ select_simple [ustr "      "; ustr "ab"; ustr "a"] = Some (ustr "      ")
  ∧ ¬ stable_max trimmed_len [ustr "      "; ustr "ab"; ustr "a"]
        (ustr "      ")
  ∧ extract_text_from_image blanks_world (ustr "/scans/a.png")
    = (simple_triples (ustr "/scans/a.png"), Ok [])
  ∧ simple_files blanks_world = [ustr "/scans/a.png"]
  ∧ trace (simple_main blanks_world)
    = [Print (MsgFound 1); Print MsgRule;
       Print (MsgProcessing 1 1 (ustr "a.png"))]
        ++ simple_triples (ustr "/scans/a.png")
        ++ [Print MsgNoContent; Print MsgNothingExtracted]
  ∧ writes (trace (simple_main blanks_world)) = []
  ∧ select_layout [ustr "ab"; ustr "      "; ustr "ab"; ustr "a"]
    = Some (ustr "ab")
  ∧ outcome (extract_text_with_layout blanks_world (ustr "Book/a.png"))
    = Ok (ustr "ab").
Proof.
  split_and!; try reflexivity.
  - repeat constructor.
  - apply max_key_stable. reflexivity.
  - intros (_ & _ & Hmax & _).
    specialize (Hmax (ustr "ab")). vm_compute in Hmax.
    assert (2 ≤ 0)
      by (apply Hmax; apply list_elem_of_further, list_elem_of_here).
    lia.
Qed.

(** ** Blank lines *)

(** C8: collapsing runs of three or more newlines a second time changes
    nothing. *)
Theorem newline_collapse_idempotent (text : str) :
  re_sub_newlines (re_sub_newlines text) = re_sub_newlines text.
Proof. apply re_sub_newlines_fixed, re_sub_newlines_no_long_run. Qed.

(** ** The calls to the engine *)

(** C2, counterexample: on an image where every call succeeds the simple
    variant makes three calls, the first of them on the preprocessed raster,
    and not the four of the Book variant; and a call that raises ends the
    calls for the file (after the second of four, here). *)
Lemma simple_variant_three_calls :
  invocations (trace (extract_text_from_image demo_world (ustr "/scans/A.png")))
  = [Recognize (Variant DefaultRecipe (ustr "/scans/A.png")) tha_eng psm6;
     Recognize (Original (ustr "/scans/A.png")) tha_eng psm6;
     Recognize (Original (ustr "/scans/A.png")) eng psm6]
  ∧ invocations
      (trace (extract_text_with_layout failing_world (ustr "Book/a.png")))
    = [Recognize (Original (ustr "Book/a.png")) tha_eng psm6;
       Recognize (Variant HighAccuracy (ustr "Book/a.png")) tha_eng psm6].
Proof. split; reflexivity. Qed.

(** C2, as amended: for every image on which no decoding, preprocessing or
    recognition call raises, the Book variant calls the engine on exactly
    (original, tha+eng, uniform block), (preprocessed, tha+eng, uniform
    block), (original, tha+eng, full page), (original, eng, uniform block),
    in that order, and the simple variant on exactly (preprocessed, tha+eng,
    uniform block), (original, tha+eng, uniform block), (original, eng,
    uniform block), in that order; the text of the file is computed from the
    answers of all the calls. *)
Theorem all_calls_before_selection (w : world) (p : str)
    (results texts : list str) :
  cv2_pipeline w HighAccuracy p = Ok () →
  cv2_pipeline w DefaultRecipe p = Ok () →
  pil_open w p = Ok () →
  answers w (book_triples p) results →
  answers w (simple_triples p) texts →
  (∃ best,
     select_layout results = Some best
     ∧ trace (extract_text_with_layout w p) = book_triples p
     ∧ invocations (trace (extract_text_with_layout w p)) = book_triples p
     ∧ outcome (extract_text_with_layout w p)
       = Ok (re_sub_newlines (Py.strip best)))
  ∧ (∃ best,
       select_simple texts = Some best
       ∧ trace (extract_text_from_image w p) = simple_triples p
       ∧ invocations (trace (extract_text_from_image w p)) = simple_triples p
       ∧ outcome (extract_text_from_image w p) = Ok (Py.strip best)).
Proof.
  intros Hhigh Hdefault Hopen Hbook Hsimple. split.
  - destruct (layout_body_success w p results Hhigh Hopen Hbook)
      as (best & Hbest & Hbody).
    exists best. unfold extract_text_with_layout. rewrite Hbody. by split_and!.
  - destruct (simple_body_success w p texts Hdefault Hopen Hsimple)
      as (best & Hbest & Hbody).
    exists best. unfold extract_text_from_image. rewrite Hbody. by split_and!.
Qed.

(** The first image of the sample folder. *)
Lemma all_calls_before_selection_witness :
  ∃ best1 best2,
    select_layout
      [ustr " Hello "; ustr "Hello" ++ [Py.NL; Py.NL; Py.NL] ++ ustr "World ";
       ustr "Hello World!!"; ustr "Hi"] = Some best1
    ∧ invocations (trace (extract_text_with_layout demo_world (ustr "A.png")))
      = book_triples (ustr "A.png")
    ∧ select_simple
        [ustr "Hello" ++ [Py.NL; Py.NL; Py.NL] ++ ustr "World ";
         ustr " Hello "; ustr "Hi"] = Some best2
    ∧ invocations (trace (extract_text_from_image demo_world (ustr "A.png")))
      = simple_triples (ustr "A.png").
Proof.
  destruct (all_calls_before_selection demo_world (ustr "A.png")
              [ustr " Hello ";
               ustr "Hello" ++ [Py.NL; Py.NL; Py.NL] ++ ustr "World ";
               ustr "Hello World!!"; ustr "Hi"]
              [ustr "Hello" ++ [Py.NL; Py.NL; Py.NL] ++ ustr "World ";
               ustr " Hello "; ustr "Hi"])
    as [(best1 & H1 & _ & H2 & _) (best2 & H3 & _ & H4 & _)];
    [reflexivity|reflexivity|reflexivity
    |repeat constructor|repeat constructor|].
  exists best1, best2. split_and!; assumption.
Defined.

(** ** Clean-up of the selected text *)

(** C3, counterexample: the simple variant keeps a run of three newlines in
    the text it selected. *)
Lemma simple_variant_keeps_blank_lines :
  outcome (extract_text_from_image demo_world (ustr "/scans/A.png"))
  = Ok (ustr "Hello" ++ [Py.NL; Py.NL; Py.NL] ++ ustr "World")
  ∧ collapse_runs (ustr "Hello" ++ [Py.NL; Py.NL; Py.NL] ++ ustr "World")
    ≠ ustr "Hello" ++ [Py.NL; Py.NL; Py.NL] ++ ustr "World".
Proof. split; [reflexivity|discriminate]. Qed.

(** C3, as amended: when no call raises, the text of an image in the Book
    variant is the selected candidate with the whitespace at its two ends
    removed and every run of three or more newlines shortened to two, and
    nothing else changed; in the simple variant it is the selected candidate
    with the whitespace at its two ends removed, its newlines as they
    were. *)
Theorem selected_text_cleanup (w : world) (filename p : str)
    (results texts : list str) :
  classify filename = KImage →
  cv2_pipeline w HighAccuracy (path_join (book_folder w) filename) = Ok () →
  pil_open w (path_join (book_folder w) filename) = Ok () →
  answers w (book_triples (path_join (book_folder w) filename)) results →
  cv2_pipeline w DefaultRecipe p = Ok () →
  pil_open w p = Ok () →
  answers w (simple_triples p) texts →
  (∃ best pre post,
     select_layout results = Some best
     ∧ best = pre ++ Py.strip best ++ post ∧ all_space pre ∧ all_space post
     ∧ book_text w filename = collapse_runs (Py.strip best)
     ∧ no_long_run (book_text w filename))
  ∧ (∃ best pre post,
       select_simple texts = Some best
       ∧ best = pre ++ Py.strip best ++ post ∧ all_space pre ∧ all_space post
       ∧ simple_text w p = Py.strip best).
Proof.
  intros Hkind Hhigh Hopen Hbook Hdefault Hopen' Hsimple. split.
  - destruct (layout_body_success w _ results Hhigh Hopen Hbook)
      as (best & Hbest & Hbody).
    destruct (strip_spec best) as (pre & post & Hsplit & Hpre & Hpost & _).
    exists best, pre, post.
    assert (book_text w filename = re_sub_newlines (Py.strip best)) as ->.
    { unfold book_text, value, book_content, extract_text_with_layout.
      by rewrite Hkind, Hbody. }
    split_and!; [done..| |].
    + apply re_sub_newlines_collapse_runs.
    + apply re_sub_newlines_no_long_run.
  - destruct (simple_body_success w p texts Hdefault Hopen' Hsimple)
      as (best & Hbest & Hbody).
    destruct (strip_spec best) as (pre & post & Hsplit & Hpre & Hpost & _).
    exists best, pre, post. split_and!; [done..|].
    unfold simple_text, value, extract_text_from_image. by rewrite Hbody.
Qed.

(** The first image of the sample folder in both variants. *)
Lemma selected_text_cleanup_witness :
  book_text demo_world (ustr "A.png")
  = ustr "Hello" ++ [Py.NL; Py.NL] ++ ustr "World"
  ∧ simple_text demo_world (ustr "/scans/A.png")
    = ustr "Hello" ++ [Py.NL; Py.NL; Py.NL] ++ ustr "World".
Proof.
  destruct (selected_text_cleanup demo_world (ustr "A.png")
              (ustr "/scans/A.png")
              [ustr " Hello ";
               ustr "Hello" ++ [Py.NL; Py.NL; Py.NL] ++ ustr "World ";
               ustr "Hello World!!"; ustr "Hi"]
              [ustr "Hello" ++ [Py.NL; Py.NL; Py.NL] ++ ustr "World ";
               ustr " Hello "; ustr "Hi"])
    as [(b1 & ? & ? & Hb1 & _ & _ & _ & H1 & _) (b2 & ? & ? & Hb2 & _ & _ & _ & H2)];
    [reflexivity|reflexivity|reflexivity|repeat constructor
    |reflexivity|reflexivity|repeat constructor|].
  split.
  - rewrite H1. vm_compute in Hb1. injection Hb1 as <-. reflexivity.
  - rewrite H2. vm_compute in Hb2. injection Hb2 as <-. reflexivity.
Defined.

(** ** Discovery and classification *)




(** ** Failing files *)

(** C5: when decoding or recognition raises for an image, the exception is
    caught in the function that handles the file and printed with the path
    of the file and its message; the text of the file is empty and no page
    is made for it; every file of the list is still processed, every other
    file with text has its page, and the file count the run reports (on the
    console, and in the header of the Book variant) is the length of the
    whole list, the failed file included. *)
Theorem failed_image_is_skipped (w : world) :
  (∀ i f e,
     book_exists w = true →
     book_files w !! i = Some f →
     classify f = KImage →
     outcome (layout_body w (path_join (book_folder w) f)) = Raise e →
     Print (MsgImageError (path_join (book_folder w) f) e)
       ∈ trace (book_main w)
     ∧ f `suffix_of` path_join (book_folder w) f
     ∧ book_text w f = []
     ∧ (∀ n c, (n, f, c) ∉ pages (book_text w) 1 (book_files w))
     ∧ processed (trace (book_main w)) = book_files w
     ∧ (∀ j g, book_files w !! j = Some g → book_text w g ≠ [] →
               (S j, g, book_text w g)
                 ∈ pages (book_text w) 1 (book_files w))
     ∧ Print (MsgFound (length (book_files w))) ∈ trace (book_main w)
     ∧ i < length (book_files w)
     ∧ writes (trace (book_main w))
       = match pages (book_text w) 1 (book_files w) with
         | [] => []
         | ps => [book_header (length (book_files w)) (output_mtime w)
                    ++ mjoin (ps ≫= book_block)]
         end)
  ∧ (∀ i p e,
       simple_files w !! i = Some p →
       outcome (simple_body w p) = Raise e →
       Print (MsgImageError p e) ∈ trace (simple_main w)
       ∧ simple_text w p = []
       ∧ (∀ n c, (n, p, c) ∉ pages (simple_text w) 1 (simple_files w))
       ∧ processed (trace (simple_main w)) = Path_name <$> simple_files w
       ∧ (∀ j g, simple_files w !! j = Some g → simple_text w g ≠ [] →
                 (S j, g, simple_text w g)
                   ∈ pages (simple_text w) 1 (simple_files w))
       ∧ Print (MsgFound (length (simple_files w))) ∈ trace (simple_main w)
       ∧ i < length (simple_files w)
       ∧ writes (trace (simple_main w))
         = match pages (simple_text w) 1 (simple_files w) with
           | [] => []
           | ps => [join_lines (ps ≫= simple_block)]
           end).
Proof.
  split.
  - intros i f e Hex Hi Hkind He.
    assert (book_content w f
            = (Print MsgReadingImage
                 :: trace (layout_body w (path_join (book_folder w) f))
                 ++ [Print (MsgImageError (path_join (book_folder w) f) e)],
               Ok [])) as Hcontent.
    { unfold book_content. rewrite Hkind.
      by rewrite (extract_text_with_layout_raise w _ e He). }
    assert (book_text w f = []) as Htext.
    { unfold book_text, value. by rewrite Hcontent. }
    split_and!.
    + destruct (book_main_round w i f Hex Hi) as (t1 & t2 & ->).
      unfold book_round. rewrite Hcontent. cbn [trace fst].
      apply elem_of_app. right. apply elem_of_app. left.
      apply list_elem_of_further, elem_of_app. left.
      apply list_elem_of_further, elem_of_app. right.
      apply list_elem_of_here.
    + by exists (join_prefix (book_folder w)).
    + done.
    + intros n c (_ & _ & _ & -> & Hne)%pages_elem. done.
    + by rewrite book_main_processed, Hex.
    + intros j g Hj Hg. apply pages_elem. exists j. by split_and!.
    + apply book_main_found; [done|]. intros Hnil. by rewrite Hnil in Hi.
    + by apply lookup_lt_Some in Hi.
    + by rewrite book_main_writes, Hex.
  - intros i p e Hi He.
    pose proof (extract_text_from_image_raise w p e He) as Hextract.
    assert (simple_text w p = []) as Htext.
    { unfold simple_text, value. by rewrite Hextract. }
    split_and!.
    + destruct (simple_main_round w i p Hi) as (t1 & t2 & ->).
      unfold simple_round. rewrite Hextract. cbn [trace fst].
      apply elem_of_app. right. apply elem_of_app. left.
      apply list_elem_of_further, elem_of_app. left.
      apply elem_of_app. right. apply list_elem_of_here.
    + done.
    + intros n c (_ & _ & _ & -> & Hne)%pages_elem. done.
    + apply simple_main_processed.
    + intros j g Hj Hg. apply pages_elem. exists j. by split_and!.
    + apply simple_main_found. intros Hnil. by rewrite Hnil in Hi.
    + by apply lookup_lt_Some in Hi.
    + apply simple_main_writes.
Qed.

(** The folder whose second image cannot be decoded. *)
Lemma failed_image_is_skipped_witness :
  (Print (MsgImageError (ustr "Book/bad.png")
            (ustr "'NoneType' object has no attribute 'shape'"))
     ∈ trace (book_main corrupt_world)
   ∧ processed (trace (book_main corrupt_world))
     = [ustr "a.png"; ustr "bad.png"; ustr "c.png"])
  ∧ (Print (MsgImageError (ustr "/scans/bad.png")
              (ustr "'NoneType' object has no attribute 'shape'"))
       ∈ trace (simple_main corrupt_world)
     ∧ simple_text corrupt_world (ustr "/scans/bad.png") = []).
Proof.
  destruct (failed_image_is_skipped corrupt_world) as [Hbook Hsimple]. split.
  - destruct (Hbook 1 (ustr "bad.png")
                (ustr "'NoneType' object has no attribute 'shape'"))
      as (Hlog & _ & _ & _ & Hproc & _); [reflexivity..|].
    split; [exact Hlog|]. rewrite Hproc. reflexivity.
  - destruct (Hsimple 1 (ustr "/scans/bad.png")
                (ustr "'NoneType' object has no attribute 'shape'"))
      as (Hlog & Htext & _); [reflexivity..|].
    split; [exact Hlog|exact Htext].
Defined.

(** ** Runs without content *)

(** C6: a run in which no file yields text, the run that finds no file
    included, writes nothing and ends with a message saying so; whenever a
    document is written, some file of the list has text. *)
Theorem no_output_without_content (w : world) :
  (book_exists w = false ∨ (∀ f, f ∈ book_files w → book_text w f = []) →
   writes (trace (book_main w)) = [] ∧ reported_nothing (trace (book_main w)))
  ∧ (∀ doc, doc ∈ writes (trace (book_main w)) →
            ∃ f, f ∈ book_files w ∧ book_text w f ≠ [])
  ∧ ((∀ p, p ∈ simple_files w → simple_text w p = []) →
     writes (trace (simple_main w)) = []
     ∧ reported_nothing (trace (simple_main w)))
  ∧ (∀ doc, doc ∈ writes (trace (simple_main w)) →
            ∃ p, p ∈ simple_files w ∧ simple_text w p ≠ []).
Proof.
  split_and!.
  - intros Hnone. rewrite book_main_writes, book_main_run.
    destruct (book_exists w); [|split; [done|by left]]. cbn [negb].
    destruct Hnone as [?|Hnone]; [done|].
    apply Forall_forall, (pages_nil_iff _ _ 1) in Hnone. rewrite Hnone.
    split; [done|].
    destruct (book_files w) as [|g files]; [by right; left|].
    right. right. cbv zeta. cbn [trace fst].
    by rewrite !(assoc_L (++)), last_snoc.
  - intros doc. rewrite book_main_writes.
    destruct (book_exists w); [|by intros ?%elem_of_nil].
    destruct (pages (book_text w) 1 (book_files w)) as [|[[n f] c] ps] eqn:Hps;
      [by intros ?%elem_of_nil|].
    intros _. exists f.
    assert ((n, f, c) ∈ pages (book_text w) 1 (book_files w)) as Hin
      by (rewrite Hps; apply list_elem_of_here).
    apply pages_elem in Hin as (i & Hi & _ & -> & Hne).
    split; [by eapply list_elem_of_lookup_2|done].
  - intros Hnone. rewrite simple_main_writes, simple_main_run. cbv zeta.
    apply Forall_forall, (pages_nil_iff _ _ 1) in Hnone. rewrite Hnone.
    split; [done|].
    destruct (simple_files w) as [|g files]; [by right; left|].
    right. right. cbv zeta. cbn [trace fst].
    by rewrite !(assoc_L (++)), last_snoc.
  - intros doc. rewrite simple_main_writes.
    destruct (pages (simple_text w) 1 (simple_files w))
      as [|[[n f] c] ps] eqn:Hps; [by intros ?%elem_of_nil|].
    intros _. exists f.
    assert ((n, f, c) ∈ pages (simple_text w) 1 (simple_files w)) as Hin
      by (rewrite Hps; apply list_elem_of_here).
    apply pages_elem in Hin as (i & Hi & _ & -> & Hne).
    split; [by eapply list_elem_of_lookup_2|done].
Qed.

(** The folder with nothing but blanks, and the sample folder. *)
Lemma no_output_without_content_witness :
  (writes (trace (book_main blank_world)) = []
   ∧ reported_nothing (trace (book_main blank_world)))
  ∧ (writes (trace (simple_main blank_world)) = []
     ∧ reported_nothing (trace (simple_main blank_world)))
  ∧ ∃ f, f ∈ book_files demo_world ∧ book_text demo_world f ≠ [].
Proof.
  destruct (no_output_without_content blank_world) as (Hbook & _ & Hsimple & _).
  destruct (no_output_without_content demo_world) as (_ & Hdoc & _).
  split; [|split].
  - apply Hbook. right. intros f Hf.
    change (book_files blank_world) with [ustr "a.png"] in Hf.
    apply list_elem_of_singleton in Hf as ->. reflexivity.
  - apply Hsimple. intros p Hp.
    change (simple_files blank_world) with [ustr "/scans/a.png"] in Hp.
    apply list_elem_of_singleton in Hp as ->. reflexivity.
  - apply (Hdoc (default [] (head (writes (trace (book_main demo_world)))))).
    apply (bool_decide_unpack _). vm_compute. exact I.
Defined.

(** ** Order of the pages *)




(** ** The header of the document *)

(** C9, counterexample: the document the simple variant writes for the two
    images of the sample folder starts with the separator of the first page;
    the file count, 2, occurs nowhere in it. *)
Lemma simple_document_has_no_header :
  ∃ doc rest,
    writes (trace (simple_main demo_world)) = [doc]
    ∧ doc = rule 80 ++ Py.NL :: (file_label ++ ustr "A.png")
              ++ Py.NL :: rule 80 ++ Py.NL :: rest
    ∧ length (simple_files demo_world) = 2
    ∧ decimal 2 = [50%N]
    ∧ 50%N ∉ doc.
Proof.
  eexists _, _. split_and!; [vm_compute; reflexivity|reflexivity..|].
  apply (bool_decide_unpack _). vm_compute. exact I.
Qed.

(** C9, as amended: every document the Book variant writes begins with the
    header: a rule, the title, a rule, the line with the number of files
    found (all the files the run processed, those without text included),
    the date line and a rule. A document of the simple variant has no
    header: it begins with the rule, the name line and the rule of its first
    page, the page of the first file with text, and the text of that
    file. *)
Theorem written_document_header (w : world) (doc : str) :
  (doc ∈ writes (trace (book_main w)) →
   ∃ date pages_text,
     doc = rule 100 ++ [Py.NL] ++ book_title ++ [Py.NL] ++ rule 100 ++ [Py.NL]
             ++ count_label ++ decimal (length (book_files w)) ++ count_unit
             ++ [Py.NL]
             ++ date_label ++ date ++ [Py.NL]
             ++ rule 100 ++ [Py.NL] ++ pages_text
     ∧ processed (trace (book_main w)) = book_files w)
  ∧ (doc ∈ writes (trace (simple_main w)) →
     ∃ i p rest,
       simple_files w !! i = Some p
       ∧ simple_text w p ≠ []
       ∧ (∀ j g, j < i → simple_files w !! j = Some g → simple_text w g = [])
       ∧ doc = rule 80 ++ Py.NL :: (file_label ++ Path_name p)
                 ++ Py.NL :: rule 80 ++ Py.NL :: simple_text w p
                 ++ Py.NL :: rest).
Proof.
  split.
  - rewrite book_main_writes, book_main_processed.
    destruct (book_exists w); [|by intros ?%elem_of_nil].
    destruct (pages (book_text w) 1 (book_files w)) as [|pg ps];
      [by intros ?%elem_of_nil|].
    intros ->%list_elem_of_singleton.
    exists (default (ustr "N/A") (output_mtime w)),
      (mjoin ((pg :: ps) ≫= book_block)).
    split; [|done]. unfold book_header. by rewrite <-!(assoc_L (++)).
  - rewrite simple_main_writes.
    destruct (pages (simple_text w) 1 (simple_files w))
      as [|[[n p] c] ps] eqn:Hps; [by intros ?%elem_of_nil|].
    intros ->%list_elem_of_singleton.
    apply pages_first in Hps as (i & Hi & _ & -> & Hne & Hbefore).
    exists i, p. eexists. split_and!; [done..|].
    cbn [mbind list_bind simple_block app join_lines].
    rewrite <-!(assoc_L (++)). simpl. reflexivity.
Qed.

(** The documents of the sample folder: three files in the Book variant. *)
Lemma written_document_header_witness :
  (∃ date pages_text,
     default [] (head (writes (trace (book_main demo_world))))
     = rule 100 ++ [Py.NL] ++ book_title ++ [Py.NL] ++ rule 100 ++ [Py.NL]
         ++ count_label ++ decimal 3 ++ count_unit ++ [Py.NL]
         ++ date_label ++ date ++ [Py.NL]
         ++ rule 100 ++ [Py.NL] ++ pages_text)
  ∧ ∃ rest,
      default [] (head (writes (trace (simple_main demo_world))))
      = rule 80 ++ Py.NL :: (file_label ++ ustr "A.png")
          ++ Py.NL :: rule 80 ++ Py.NL
          :: simple_text demo_world (ustr "/scans/A.png") ++ Py.NL :: rest.
Proof.
  destruct (written_document_header demo_world
              (default [] (head (writes (trace (book_main demo_world))))))
    as [Hbook _].
  destruct (written_document_header demo_world
              (default [] (head (writes (trace (simple_main demo_world))))))
    as [_ Hsimple].
  split.
  - destruct Hbook as (date & pages_text & Hdoc & _).
    { apply (bool_decide_unpack _). vm_compute. exact I. }
    by exists date, pages_text.
  - destruct Hsimple as (i & p & rest & Hi & Hne & Hbefore & Hdoc).
    { apply (bool_decide_unpack _). vm_compute. exact I. }
    destruct i as [|i].
    + injection Hi as <-. by exists rest.
    + exfalso.
      by specialize (Hbefore 0 (ustr "/scans/A.png") ltac:(lia) eq_refl).
Defined.

(** ** Page ordinals *)

(** C10, counterexample: [b.txt] is empty and last in the folder; the only
    page is that of [a.txt], with ordinal 1, and nothing is skipped. *)
Lemma trailing_empty_file_leaves_no_gap :
  book_files trailing_world = [ustr "a.txt"; ustr "b.txt"]
  ∧ book_text trailing_world (ustr "b.txt") = []
  ∧ ordinals (pages (book_text trailing_world) 1 (book_files trailing_world))
    = [1]
  ∧ consecutive [1].
Proof. split_and!; [reflexivity..|]. by intros [|[|i]] a b. Qed.

(** C10, as amended: in the Book variant the ordinal in the separator block
    of a page is the 1-based position of its file in the whole sorted list,
    files without text counted; so whenever a file without text comes before
    a file with text, the ordinals of the pages in the document are not
    1, 2, ..., and whenever it stands between two files with text they are
    not consecutive. *)
Theorem page_ordinals_are_positions (w : world) :
  writes (trace (book_main w))
  = (if book_exists w then
       match pages (book_text w) 1 (book_files w) with
       | [] => []
       | ps => [book_header (length (book_files w)) (output_mtime w)
                  ++ mjoin (ps ≫= book_block)]
       end
     else [])
  ∧ (∀ n f c,
       (n, f, c) ∈ pages (book_text w) 1 (book_files w)
       ↔ ∃ i, book_files w !! i = Some f ∧ n = S i
              ∧ c = book_text w f ∧ c ≠ [])
  ∧ (∀ n f c,
       book_block (n, f, c)
       = [[Py.NL; Py.NL] ++ rule 100 ++ [Py.NL]
            ++ (page_label ++ decimal n ++ ustr ": " ++ f) ++ [Py.NL]
            ++ rule 100 ++ [Py.NL; Py.NL]; c])
  ∧ (∀ j k fj fk,
       j < k →
       book_files w !! j = Some fj → book_text w fj = [] →
       book_files w !! k = Some fk → book_text w fk ≠ [] →
       ordinals (pages (book_text w) 1 (book_files w))
       ≠ seq 1 (length (pages (book_text w) 1 (book_files w))))
  ∧ (∀ i j k fi fj fk,
       i < j < k →
       book_files w !! i = Some fi → book_text w fi ≠ [] →
       book_files w !! j = Some fj → book_text w fj = [] →
       book_files w !! k = Some fk → book_text w fk ≠ [] →
       ¬ consecutive (ordinals (pages (book_text w) 1 (book_files w)))).
Proof.
  split_and!.
  - apply book_main_writes.
  - intros n f c. apply pages_elem.
  - done.
  - intros j k fj fk Hjk Hj Htj Hk Htk Hseq.
    assert (S k ∈ ordinals (pages (book_text w) 1 (book_files w))) as Hin
      by (apply ordinals_elem; by exists k, fk).
    assert (S j ∈ ordinals (pages (book_text w) 1 (book_files w))) as Hin'.
    { rewrite Hseq in Hin |- *. apply elem_of_seq in Hin.
      apply elem_of_seq. lia. }
    apply ordinals_elem in Hin' as (j' & f & Hj' & Heq & Hne).
    assert (j' = j) as -> by lia. rewrite Hj in Hj'. injection Hj' as <-.
    done.
  - intros i j k fi fj fk Hijk Hi Hti Hj Htj Hk Htk Hcons.
    assert (S j ∈ ordinals (pages (book_text w) 1 (book_files w))) as Hin.
    { apply (consecutive_between _ (S i) _ (S k)); [done| | |lia].
      - apply ordinals_elem. by exists i, fi.
      - apply ordinals_elem. by exists k, fk. }
    apply ordinals_elem in Hin as (j' & f & Hj' & Heq & Hne).
    assert (j' = j) as -> by lia. rewrite Hj in Hj'. injection Hj' as <-.
    done.
Qed.

(** Three text files, the second one empty: pages 1 and 3. *)
Lemma page_ordinals_are_positions_witness :
  ordinals (pages (book_text gap_world) 1 (book_files gap_world)) = [1; 3]
  ∧ ¬ consecutive
        (ordinals (pages (book_text gap_world) 1 (book_files gap_world))).
Proof.
  split; [reflexivity|].
  destruct (page_ordinals_are_positions gap_world) as (_ & _ & _ & _ & Hgap).
  apply (Hgap 0 1 2 (ustr "a.txt") (ustr "b.txt") (ustr "c.txt"));
    [lia|reflexivity|discriminate|reflexivity|reflexivity|reflexivity
    |discriminate].
Defined.

(** * Further properties of the scripts *)

(** ** The blank-line clean-up, character by character *)

Section collapse_facts.

Lemma newline_run_le s : newline_run s ≤ length s.
Proof.
  induction s as [|c s IH]; [done|]. simpl.
  destruct (N.eqb_spec c Py.NL); lia.
Qed.

Lemma other_chars_replicate n : other_chars (replicate n Py.NL) = [].
Proof.
  unfold other_chars. induction n as [|n IH]; [done|]. simpl.
  rewrite filter_cons_False; [done|]. by intros H.
Qed.

Lemma other_chars_run s :
  other_chars s = other_chars (drop (newline_run s) s).
Proof.
  rewrite (newline_run_split s) at 1. unfold other_chars.
  rewrite filter_app. fold (other_chars (replicate (newline_run s) Py.NL)).
  by rewrite other_chars_replicate.
Qed.

Lemma re_sub_newlines_other_chars s :
  other_chars (re_sub_newlines s) = other_chars s.
Proof.
  apply (re_sub_newlines_ind (λ s r, other_chars r = other_chars s));
    [done|..].
  - intros s' Hge IH. rewrite (other_chars_run s'), <-IH.
    unfold other_chars. by rewrite !filter_cons_False by (by intros H).
  - intros c s' Hlt IH. unfold other_chars in *. rewrite !filter_cons.
    by rewrite IH.
Qed.

Lemma re_sub_newlines_length s :
  length (re_sub_newlines s) ≤ length s
  ∧ (length (re_sub_newlines s) = length s → no_long_run s).
Proof.
  apply (re_sub_newlines_ind
           (λ s r, length r ≤ length s ∧ (length r = length s → no_long_run s))).
  - split; [done|]. intros _ i. rewrite drop_nil. simpl. lia.
  - intros s' Hge [IH _]. pose proof (newline_run_le s') as Hle.
    rewrite length_drop in IH. simpl. split; [lia|lia].
  - intros c s' Hlt [IH1 IH2]. simpl. split; [lia|].
    intros Heq. apply no_long_run_cons; [done|]. apply IH2. lia.
Qed.

Lemma re_sub_newlines_nil s : re_sub_newlines s = [] ↔ s = [].
Proof.
  split; [|by intros ->].
  destruct s as [|c s]; [done|]. simp re_sub_newlines.
  by destruct (le_lt_dec 3 (newline_run (c :: s))).
Qed.

Lemma re_sub_newlines_head s : head (re_sub_newlines s) = head s.
Proof.
  destruct s as [|c s]; [done|].
  destruct (le_lt_dec 3 (newline_run (c :: s))) as [Hge|Hlt].
  - rewrite re_sub_newlines_long by done. simpl. f_equal. symmetry.
    apply (newline_run_pos c s). lia.
  - by rewrite re_sub_newlines_short.
Qed.

Lemma last_replicate {A} (x : A) n : 0 < n → last (replicate n x) = Some x.
Proof.
  destruct n as [|n]; [lia|]. intros _. by rewrite replicate_S_end, last_snoc.
Qed.

Lemma re_sub_newlines_last s : last (re_sub_newlines s) = last s.
Proof.
  apply (re_sub_newlines_ind (λ s r, last r = last s)); [done|..].
  - intros s' Hge IH. pose proof (newline_run_split s') as Hs.
    destruct (drop (newline_run s') s') as [|x rest] eqn:Hdrop.
    + simp re_sub_newlines. rewrite Hs, app_nil_r, last_replicate by lia.
      done.
    + rewrite Hs, last_app_cons, <-IH.
      destruct (re_sub_newlines (x :: rest)) as [|y r] eqn:Hr.
      * by apply (proj1 (re_sub_newlines_nil _)) in Hr.
      * by rewrite !last_cons_cons.
  - intros c s' Hlt IH. rewrite !last_cons. by rewrite IH.
Qed.

End collapse_facts.

(** X1: the clean-up of [extract_text_with_layout] removes newlines and
    nothing else: the other characters stay as they are and in their order,
    the text never gets longer, and it keeps its length exactly when it had
    no run of three or more newlines (and then it is not changed at all). *)
Theorem collapse_only_removes_newlines (text : str) :
  other_chars (re_sub_newlines text) = other_chars text
  ∧ length (re_sub_newlines text) ≤ length text
  ∧ (length (re_sub_newlines text) = length text
     ↔ re_sub_newlines text = text).
Proof.
  split_and!.
  - apply re_sub_newlines_other_chars.
  - apply re_sub_newlines_length.
  - split; [|by intros ->].
    intros Hlen. by apply re_sub_newlines_fixed, re_sub_newlines_length.
Qed.

(** ** The text of a file *)

Section text_facts.

Lemma strip_trimmed s : trimmed (Py.strip s).
Proof. destruct (strip_spec s) as (pre & post & _ & _ & _ & ? & ?). by split. Qed.

Lemma lstrip_fixed s :
  (∀ c, head s = Some c → Py.isspace c = false) → Py.lstrip s = s.
Proof. destruct s as [|c s]; [done|]. intros Hc. simpl. by rewrite Hc. Qed.

Lemma trimmed_strip s : trimmed s → Py.strip s = s.
Proof.
  intros [Hhead Hlast]. unfold Py.strip, Py.rstrip.
  rewrite (lstrip_fixed s) by done. rewrite lstrip_fixed.
  - apply reverse_involutive.
  - intros c. rewrite head_reverse. apply Hlast.
Qed.

Lemma strip_nil s : Py.strip s = [] ↔ all_space s.
Proof.
  destruct (strip_spec s) as (pre & post & Hs & Hpre & Hpost & Hhead & _).
  split.
  - intros Hnil. rewrite Hs, Hnil. by apply Forall_app.
  - intros Hall. destruct (Py.strip s) as [|c t] eqn:Hstrip; [done|].
    rewrite Hs in Hall. apply Forall_app in Hall as [_ Hall].
    apply Forall_app in Hall as [Hall _]. apply Forall_cons in Hall as [Hc _].
    by rewrite (Hhead c) in Hc.
Qed.

Lemma trimmed_re_sub_newlines s : trimmed s → trimmed (re_sub_newlines s).
Proof.
  unfold trimmed. by rewrite re_sub_newlines_head, re_sub_newlines_last.
Qed.

Lemma layout_body_value w p c :
  outcome (layout_body w p) = Ok c →
  ∃ best, c = re_sub_newlines (Py.strip best).
Proof.
  unfold layout_body, preprocess_for_high_accuracy, preprocess, Image_open,
    image_to_string.
  cbn. run_world w; intros [= <-]; by eexists.
Qed.

Lemma simple_body_value w p c :
  outcome (simple_body w p) = Ok c → ∃ best, c = Py.strip best.
Proof.
  unfold simple_body, preprocess_image, preprocess, Image_open,
    image_to_string.
  cbn. run_world w; intros [= <-]; by eexists.
Qed.

Lemma trimmed_nil : trimmed [].
Proof. by split. Qed.

Lemma layout_value_cases w p :
  value [] (extract_text_with_layout w p) = []
  ∨ ∃ best, value [] (extract_text_with_layout w p)
            = re_sub_newlines (Py.strip best).
Proof.
  unfold value, extract_text_with_layout.
  destruct (layout_body w p) as [t [c|e]] eqn:Hbody; [|by left].
  right. apply (layout_body_value w p). by rewrite Hbody.
Qed.

Lemma simple_value_cases w p :
  value [] (extract_text_from_image w p) = []
  ∨ ∃ best, value [] (extract_text_from_image w p) = Py.strip best.
Proof.
  unfold value, extract_text_from_image.
  destruct (simple_body w p) as [t [c|e]] eqn:Hbody; [|by left].
  right. apply (simple_body_value w p). by rewrite Hbody.
Qed.

End text_facts.

(** X2: whatever the libraries do, the text either extraction function
    returns neither begins nor ends with whitespace, and the one of the Book
    variant has no run of three or more newlines; trimming and cleaning it
    again changes nothing. *)
Theorem extracted_text_normal_form (w : world) (p : str) :
  trimmed (value [] (extract_text_with_layout w p))
  ∧ no_long_run (value [] (extract_text_with_layout w p))
  ∧ re_sub_newlines (Py.strip (value [] (extract_text_with_layout w p)))
    = value [] (extract_text_with_layout w p)
  ∧ trimmed (value [] (extract_text_from_image w p))
  ∧ Py.strip (value [] (extract_text_from_image w p))
    = value [] (extract_text_from_image w p).
Proof.
  assert (trimmed (value [] (extract_text_with_layout w p))
          ∧ no_long_run (value [] (extract_text_with_layout w p)))
    as [Ht Hn].
  { destruct (layout_value_cases w p) as [->|[best ->]].
    - split; [apply trimmed_nil|]. intros i. rewrite drop_nil. simpl. lia.
    - split; [apply trimmed_re_sub_newlines, strip_trimmed|].
      apply re_sub_newlines_no_long_run. }
  assert (trimmed (value [] (extract_text_from_image w p))) as Ht'.
  { destruct (simple_value_cases w p) as [->|[best ->]].
    - apply trimmed_nil.
    - apply strip_trimmed. }
  split_and!; [done|done| |done|by apply trimmed_strip].
  rewrite trimmed_strip by done. by apply re_sub_newlines_fixed.
Qed.

Section blank_candidates.

Lemma trimmed_len_0 x : trimmed_len x = 0 ↔ all_space x.
Proof.
  unfold trimmed_len, Py.len. rewrite <-strip_nil.
  by destruct (Py.strip x).
Qed.

Lemma stable_max_blank results best :
  stable_max trimmed_len results best →
  all_space best ↔ Forall all_space results.
Proof.
  intros (i & Hi & Hmax & _). rewrite <-trimmed_len_0. split.
  - intros H0. apply Forall_forall. intros y Hy. apply trimmed_len_0.
    specialize (Hmax y Hy). lia.
  - intros Hall. rewrite Forall_forall in Hall. apply trimmed_len_0, Hall.
    by eapply list_elem_of_lookup_2.
Qed.

Lemma max_from_ext {A} (key1 key2 : A → nat) l : ∀ best,
  Forall (λ x, key1 x = key2 x) (best :: l) →
  Py.max_from key1 best l = Py.max_from key2 best l.
Proof.
  induction l as [|x l IH]; intros best Hall; [done|]. simpl.
  apply Forall_cons in Hall as [Hbest Hall].
  apply Forall_cons in Hall as [Hx Hall].
  rewrite Hbest, Hx. destruct (key2 best <? key2 x); apply IH; by constructor.
Qed.

End blank_candidates.

(** X3: in the Book variant, when no call raises, an image is left without
    text (and so without a page) exactly when every one of its four
    candidates consists of whitespace only. *)
Theorem layout_text_empty_iff_blank (w : world) (p : str)
    (results : list str) :
  cv2_pipeline w HighAccuracy p = Ok () →
  pil_open w p = Ok () →
  answers w (book_triples p) results →
  value [] (extract_text_with_layout w p) = [] ↔ Forall all_space results.
Proof.
  intros Hcv Hopen Hans.
  destruct (layout_body_success w p results Hcv Hopen Hans)
    as (best & Hbest & Hbody).
  unfold value, extract_text_with_layout. rewrite Hbody. cbn.
  rewrite re_sub_newlines_nil, strip_nil.
  apply stable_max_blank. by apply max_key_stable.
Qed.

(** The image of blanks, and the first image of the sample folder. *)
Lemma layout_text_empty_iff_blank_witness :
  value [] (extract_text_with_layout blank_world (ustr "Book/a.png")) = []
  ∧ ¬ Forall all_space
        [ustr " Hello ";
         ustr "Hello" ++ [Py.NL; Py.NL; Py.NL] ++ ustr "World ";
         ustr "Hello World!!"; ustr "Hi"].
Proof.
  split.
  - apply (layout_text_empty_iff_blank blank_world (ustr "Book/a.png")
             (replicate 4 (ustr "  " ++ [Py.NL])));
      [reflexivity|reflexivity|repeat constructor|repeat constructor].
  - intros Hall.
    apply (layout_text_empty_iff_blank demo_world (ustr "Book/A.png")) in Hall;
      [discriminate|reflexivity|reflexivity|repeat constructor].
Defined.

(** X4: when no candidate has whitespace at either end, the selectors of
    the two scripts choose the same candidate. *)
Theorem selectors_agree_on_trimmed (results : list str) :
  Forall (λ x, Py.strip x = x) results →
  select_simple results = select_layout results.
Proof.
  intros Hall. destruct results as [|x l]; [done|].
  unfold select_simple, select_layout. simpl. f_equal.
  apply max_from_ext. eapply Forall_impl; [done|].
  intros y Hy. unfold trimmed_len. by rewrite Hy.
Qed.

Lemma selectors_agree_on_trimmed_witness :
  select_simple [ustr "ab"; ustr "x y z"; ustr "c"]
  = select_layout [ustr "ab"; ustr "x y z"; ustr "c"].
Proof.
  apply selectors_agree_on_trimmed. repeat constructor.
Defined.

(** ** The dispatch *)

Section case_facts.

Lemma lower_char_dot c : lower_char c = DOT ↔ c = DOT.
Proof.
  unfold lower_char, DOT.
  destruct (N.leb_spec 65 c), (N.leb_spec c 90), (N.eqb_spec c 8490);
    simpl; lia.
Qed.

Lemma lower_char_idemp c : lower_char (lower_char c) = lower_char c.
Proof.
  unfold lower_char at 2.
  destruct (N.leb_spec 65 c), (N.leb_spec c 90), (N.eqb_spec c 8490);
    simpl; unfold lower_char;
    repeat match goal with
      | |- context [(?a <=? ?b)%N] => destruct (N.leb_spec a b)
      | |- context [(?a =? ?b)%N] => destruct (N.eqb_spec a b)
      end; simpl; lia.
Qed.

Lemma lower_idemp s : lower (lower s) = lower s.
Proof.
  unfold lower. rewrite <-list_fmap_compose. apply list_fmap_ext.
  intros i c _. apply lower_char_idemp.
Qed.

Lemma rfind_lower s : rfind DOT (lower s) = rfind DOT s.
Proof.
  induction s as [|c s IH]; [done|]. simpl.
  change (lower_char <$> s) with (lower s). rewrite IH.
  destruct (rfind DOT s); [done|].
  destruct (N.eqb_spec (lower_char c) DOT) as [Hc|Hc],
    (N.eqb_spec c DOT) as [Hc'|Hc']; try done.
  - by apply (proj1 (lower_char_dot c)) in Hc.
  - by apply (proj2 (lower_char_dot c)) in Hc'.
Qed.

Lemma Path_suffix_lower s : Path_suffix (lower s) = lower (Path_suffix s).
Proof.
  unfold Path_suffix. rewrite rfind_lower.
  replace (length (lower s)) with (length s)
    by (unfold lower; by rewrite length_fmap).
  destruct (rfind DOT s) as [i|]; [|done].
  destruct ((0 <? i) && (i <? length s - 1)); [|done].
  unfold lower. by rewrite fmap_drop.
Qed.

End case_facts.

(** X5: the dispatch of the Book variant ignores letter case: two names that
    become equal when lower-cased are classified alike. *)
Theorem classify_ignores_case (f g : str) :
  lower f = lower g → classify f = classify g.
Proof.
  intros Heq. unfold classify. cbv zeta.
  by rewrite <-!Path_suffix_lower, Heq.
Qed.

Lemma classify_ignores_case_witness :
  classify (ustr "Scan.PNG") = classify (ustr "sCAN.png").
Proof. apply classify_ignores_case. reflexivity. Defined.

(** ** Text files *)

(** X6: [read_text_file] never raises, never calls the recognition engine
    and writes nothing, and its result has no whitespace at either end. When
    the file is read (as UTF-8, or as Latin-1 after a UTF-8 decoding error)
    the result is the text read, trimmed, and nothing is printed; when it is
    not (reading as UTF-8 raises another exception, or reading as Latin-1
    raises), the result is empty and exactly one message is printed, with
    the path and the exception. *)
Theorem read_text_file_quiet_or_empty (w : world) (p : str) :
  ∃ c,
    outcome (read_text_file w p) = Ok c
    ∧ Py.strip c = c
    ∧ invocations (trace (read_text_file w p)) = []
    ∧ writes (trace (read_text_file w p)) = []
    ∧ (∀ s, read_utf8 w p = ReadOk s →
            c = Py.strip s ∧ trace (read_text_file w p) = [])
    ∧ (∀ e s, read_utf8 w p = UnicodeDecodeError e →
              read_latin1 w p = Ok s →
              c = Py.strip s ∧ trace (read_text_file w p) = [])
    ∧ (∀ e e', read_utf8 w p = UnicodeDecodeError e →
               read_latin1 w p = Raise e' →
               c = []
               ∧ trace (read_text_file w p) = [Print (MsgCannotRead p e')])
    ∧ (∀ e, read_utf8 w p = ReadError e →
            c = []
            ∧ trace (read_text_file w p) = [Print (MsgReadError p e)]).
Proof.
  unfold read_text_file. destruct (read_utf8 w p) as [s|e|e].
  - exists (Py.strip s). split_and!; [done| |done..| | | |].
    + apply trimmed_strip, strip_trimmed.
    + by intros ? [= <-].
    + by intros.
    + by intros.
    + by intros.
  - destruct (read_latin1 w p) as [s|e'].
    + exists (Py.strip s). split_and!; [done| |done..| | | |].
      * apply trimmed_strip, strip_trimmed.
      * by intros.
      * by intros ?? _ [= <-].
      * by intros.
      * by intros.
    + exists []. split_and!; [done..| | | |].
      * by intros.
      * by intros.
      * by intros ?? _ [= <-].
      * by intros.
  - exists []. split_and!; [done..| | | |].
    + by intros.
    + by intros.
    + by intros.
    + by intros ? [= <-].
Qed.

(** ** Pages in the document *)

Section document_facts.

Lemma join_lines_app l1 l2 :
  l1 ≠ [] → l2 ≠ [] →
  join_lines (l1 ++ l2) = join_lines l1 ++ Py.NL :: join_lines l2.
Proof.
  intros Hl1 Hl2. induction l1 as [|a [|b l1] IH]; [done| |].
  - destruct l2; done.
  - change (join_lines ((a :: b :: l1) ++ l2))
      with (a ++ Py.NL :: join_lines ((b :: l1) ++ l2)).
    rewrite IH by done.
    change (join_lines (a :: b :: l1))
      with (a ++ Py.NL :: join_lines (b :: l1)).
    by rewrite <-(assoc_L (++)).
Qed.

(** A page of the Book variant sits in the document as its separator
    followed by its text. *)
Lemma book_document_page w n f c :
  book_exists w = true →
  (n, f, c) ∈ pages (book_text w) 1 (book_files w) →
  ∃ pre post,
    writes (trace (book_main w))
    = [pre ++ format_page_separator n f ++ c ++ post].
Proof.
  intros Hex Hin. rewrite book_main_writes, Hex.
  apply list_elem_of_split in Hin as (ps1 & ps2 & Hps). rewrite Hps.
  exists (book_header (length (book_files w)) (output_mtime w)
            ++ mjoin (ps1 ≫= book_block)),
    (mjoin (ps2 ≫= book_block)).
  destruct (ps1 ++ (n, f, c) :: ps2) as [|q qs] eqn:Hqs;
    [by destruct ps1|].
  rewrite <-Hqs. f_equal. rewrite bind_app, join_app.
  cbn [mbind list_bind]. rewrite join_app.
  cbn [book_block mjoin list_join]. by rewrite app_nil_r, <-!(assoc_L (++)).
Qed.

(** A page of the simple variant sits in the document as two rules around
    the file name, followed by its text and a newline. *)
Lemma simple_document_page w n p c :
  (n, p, c) ∈ pages (simple_text w) 1 (simple_files w) →
  ∃ pre post,
    writes (trace (simple_main w))
    = [pre ++ (rule 80 ++ Py.NL :: (file_label ++ Path_name p)
                 ++ Py.NL :: rule 80 ++ Py.NL :: c ++ [Py.NL]) ++ post].
Proof.
  intros Hin. rewrite simple_main_writes.
  apply list_elem_of_split in Hin as (ps1 & ps2 & Hps). rewrite Hps.
  assert (∃ pre post,
            join_lines ((ps1 ++ (n, p, c) :: ps2) ≫= simple_block)
            = pre ++ join_lines (simple_block (n, p, c)) ++ post)
    as (pre & post & Hdoc).
  { rewrite bind_app. cbn [mbind list_bind].
    assert (∃ post, join_lines (simple_block (n, p, c) ++ ps2 ≫= simple_block)
                    = join_lines (simple_block (n, p, c)) ++ post)
      as [post Hpost].
    { destruct (ps2 ≫= simple_block) as [|b bs] eqn:Hbs.
      - exists []. by rewrite !app_nil_r.
      - eexists. by apply join_lines_app. }
    destruct (ps1 ≫= simple_block) as [|b bs] eqn:Hbs.
    - exists [], post. by rewrite !app_nil_l, Hpost.
    - exists (join_lines (b :: bs) ++ [Py.NL]), post.
      rewrite join_lines_app; [|done|done].
      rewrite Hpost. by rewrite <-!(assoc_L (++)). }
  destruct (ps1 ++ (n, p, c) :: ps2) as [|q qs] eqn:Hqs;
    [by destruct ps1|].
  rewrite Hdoc. exists pre, post. reflexivity.
Qed.

End document_facts.

(** ** What can be encoded *)

Section encoding_facts.

Lemma encodable_app s1 s2 :
  encodable (s1 ++ s2) ↔ encodable s1 ∧ encodable s2.
Proof. apply Forall_app. Qed.

Lemma encodable_cons c s :
  encodable (c :: s) ↔ surrogate c = false ∧ encodable s.
Proof. apply (Forall_cons (λ x, surrogate x = false)). Qed.

Lemma encodable_ustr s : encodable (ustr s).
Proof.
  unfold ustr, encodable. apply Forall_fmap, Forall_forall. intros a _.
  simpl. unfold surrogate. pose proof (N_ascii_bounded a).
  apply andb_false_intro1, N.leb_gt. lia.
Qed.

Lemma encodable_rule n : encodable (rule n).
Proof. by apply Forall_replicate. Qed.

Lemma encodable_labels :
  encodable page_label ∧ encodable file_label ∧ encodable book_title
  ∧ encodable count_label ∧ encodable count_unit ∧ encodable date_label.
Proof. split_and!; apply (bool_decide_unpack _); by vm_compute. Qed.

Lemma encodable_separator n f :
  encodable f → encodable (format_page_separator n f).
Proof.
  intros Hf. destruct encodable_labels as (Hpage & _).
  unfold format_page_separator. cbv zeta.
  rewrite !encodable_app.
  split_and!; try done; try apply encodable_rule; try apply encodable_ustr;
    by repeat constructor.
Qed.

Lemma encodable_header n mtime :
  encodable (default (ustr "N/A") mtime) → encodable (book_header n mtime).
Proof.
  intros Hdate. destruct encodable_labels as (_ & _ & ? & ? & ? & ?).
  unfold book_header. rewrite !encodable_app.
  split_and!; try done; try apply encodable_rule; try apply encodable_ustr;
    by repeat constructor.
Qed.

Lemma Path_name_suffix p : Path_name p `suffix_of` p.
Proof.
  induction p as [|c p IH]; [done|]. simpl. case_bool_decide.
  - by apply suffix_cons_r.
  - destruct (c =? SLASH)%N; [by apply suffix_cons_r|done].
Qed.

Lemma encodable_Path_name p : encodable p → encodable (Path_name p).
Proof.
  intros Hp. destruct (Path_name_suffix p) as [k Hk].
  rewrite Hk in Hp. by apply encodable_app in Hp as [_ ?].
Qed.

Lemma encodable_book_pages ps :
  Forall (λ q : nat * str * str, encodable q.1.2 ∧ encodable q.2) ps →
  encodable (mjoin (ps ≫= book_block)).
Proof.
  induction 1 as [|[[n f] c] ps [Hf Hc] _ IH]; [constructor|].
  cbn [mbind list_bind]. rewrite join_app. apply encodable_app.
  split; [|done]. cbn [book_block mjoin list_join].
  rewrite app_nil_r. apply encodable_app.
  split; [by apply encodable_separator|done].
Qed.

Lemma encodable_join_lines l :
  Forall encodable l → encodable (join_lines l).
Proof.
  induction 1 as [|a l Ha Hl IH]; [constructor|].
  destruct l as [|b l]; [done|].
  change (join_lines (a :: b :: l)) with (a ++ Py.NL :: join_lines (b :: l)).
  apply encodable_app. split; [done|]. by apply encodable_cons.
Qed.

Lemma encodable_simple_pages ps :
  Forall (λ q : nat * str * str, encodable q.1.2 ∧ encodable q.2) ps →
  encodable (join_lines (ps ≫= simple_block)).
Proof.
  intros Hps. apply encodable_join_lines.
  induction Hps as [|[[n p] c] ps [Hp Hc] _ IH]; [constructor|].
  cbn [mbind list_bind]. apply Forall_app. split; [|done].
  destruct encodable_labels as (_ & Hfile & _).
  cbn [simple_block]. simpl in Hp, Hc.
  apply Forall_cons; split; [apply encodable_rule|].
  apply Forall_cons; split.
  { apply encodable_app. split; [done|by apply encodable_Path_name]. }
  apply Forall_cons; split; [apply encodable_rule|].
  apply Forall_cons; split; [done|].
  apply Forall_cons; split; constructor.
Qed.

Lemma pages_encodable (text : str → str) files : ∀ idx,
  Forall encodable files → Forall (λ f, encodable (text f)) files →
  Forall (λ q : nat * str * str, encodable q.1.2 ∧ encodable q.2)
    (pages text idx files).
Proof.
  induction files as [|f files IH]; intros idx Hnames Htexts; [constructor|].
  apply Forall_cons in Hnames as [Hf Hnames].
  apply Forall_cons in Htexts as [Hc Htexts].
  simpl. destruct (text f) as [|x c] eqn:Hfc; [by apply IH|].
  constructor; [done|by apply IH].
Qed.

(** The document of a run can be encoded when its names and texts can. *)
Lemma book_document_encodable w doc :
  book_encodable w → doc ∈ writes (trace (book_main w)) → encodable doc.
Proof.
  intros (Hnames & Htexts & Hdate). rewrite book_main_writes.
  destruct (book_exists w); [|by intros ?%elem_of_nil].
  pose proof (pages_encodable (book_text w) (book_files w) 1 Hnames Htexts)
    as Hps.
  destruct (pages (book_text w) 1 (book_files w)) as [|pg ps];
    [by intros ?%elem_of_nil|].
  intros ->%list_elem_of_singleton. apply encodable_app.
  split; [by apply encodable_header|by apply encodable_book_pages].
Qed.

Lemma simple_document_encodable w doc :
  simple_encodable w → doc ∈ writes (trace (simple_main w)) → encodable doc.
Proof.
  intros (Hnames & Htexts). rewrite simple_main_writes.
  pose proof (pages_encodable (simple_text w) (simple_files w) 1 Hnames
                Htexts) as Hps.
  destruct (pages (simple_text w) 1 (simple_files w)) as [|pg ps];
    [by intros ?%elem_of_nil|].
  intros ->%list_elem_of_singleton. by apply encodable_simple_pages.
Qed.

Lemma stored_encodable doc : encodable doc → stored doc = doc.
Proof. intros Hdoc. unfold stored. by rewrite decide_True. Qed.

End encoding_facts.

(** X7: when no name and no text of the run has a lone surrogate, so that
    the written document can be encoded, every file with text is in the
    output file with its text unchanged: in the Book variant after the
    separator that carries its position in the file list and its name, in
    the simple variant after two rules around its name and followed by a
    newline. *)
Theorem pages_verbatim_in_document (w : world) :
  (book_exists w = true → book_encodable w →
   ∀ i f, book_files w !! i = Some f → book_text w f ≠ [] →
          ∃ doc pre post,
            writes (trace (book_main w)) = [doc]
            ∧ stored doc
              = pre ++ format_page_separator (S i) f ++ book_text w f
                  ++ post)
  ∧ (simple_encodable w →
     ∀ i p, simple_files w !! i = Some p → simple_text w p ≠ [] →
            ∃ doc pre post,
              writes (trace (simple_main w)) = [doc]
              ∧ stored doc
                = pre ++ (rule 80 ++ Py.NL :: (file_label ++ Path_name p)
                            ++ Py.NL :: rule 80 ++ Py.NL :: simple_text w p
                            ++ [Py.NL]) ++ post).
Proof.
  split.
  - intros Hex Henc i f Hi Hne.
    destruct (book_document_page w (S i) f (book_text w f) Hex)
      as (pre & post & Hdoc).
    { apply pages_elem. by exists i. }
    eexists _, pre, post. split; [exact Hdoc|].
    apply stored_encodable, (book_document_encodable w); [done|].
    rewrite Hdoc. apply list_elem_of_here.
  - intros Henc i p Hi Hne.
    destruct (simple_document_page w (S i) p (simple_text w p))
      as (pre & post & Hdoc).
    { apply pages_elem. by exists i. }
    eexists _, pre, post. split; [exact Hdoc|].
    apply stored_encodable, (simple_document_encodable w); [done|].
    rewrite Hdoc. apply list_elem_of_here.
Qed.

(** The sample folder: [b.png] in both variants. *)
Lemma pages_verbatim_in_document_witness :
  (book_encodable demo_world
   ∧ ∃ doc pre post,
       writes (trace (book_main demo_world)) = [doc]
       ∧ stored doc
         = pre ++ format_page_separator 2 (ustr "b.png")
             ++ (ustr "Hello" ++ [Py.NL; Py.NL] ++ ustr "World") ++ post)
  ∧ (simple_encodable demo_world
     ∧ ∃ doc pre post,
         writes (trace (simple_main demo_world)) = [doc]
         ∧ stored doc
           = pre ++ (rule 80 ++ Py.NL :: (file_label ++ ustr "b.png")
                       ++ Py.NL :: rule 80 ++ Py.NL
                       :: (ustr "Hello" ++ [Py.NL; Py.NL; Py.NL]
                             ++ ustr "World")
                       ++ [Py.NL]) ++ post).
Proof.
  destruct (pages_verbatim_in_document demo_world) as [Hbook Hsimple].
  assert (book_encodable demo_world) as Hb
    by (split_and!; apply (bool_decide_unpack _); by vm_compute).
  assert (simple_encodable demo_world) as Hs
    by (split_and!; apply (bool_decide_unpack _); by vm_compute).
  split; (split; [done|]).
  - apply (Hbook eq_refl Hb 1 (ustr "b.png")); [reflexivity|discriminate].
  - apply (Hsimple Hs 1 (ustr "/scans/b.png")); [reflexivity|discriminate].
Defined.

(** X8: a text file of the Book folder that is read (as UTF-8, or as
    Latin-1 after a UTF-8 decoding error) and whose text, as [f.read()]
    returns it (decoded, its line endings translated to newlines), is not
    all whitespace has that text in the output file, after the separator of
    the file, unchanged apart from the whitespace trimmed off its two ends;
    provided no name and no text of the run has a lone surrogate, so that
    the written document can be encoded. *)
Theorem text_file_round_trip (w : world) (i : nat) (f s : str) :
  book_exists w = true →
  book_encodable w →
  book_files w !! i = Some f →
  classify f = KText →
  read_utf8 w (path_join (book_folder w) f) = ReadOk s
  ∨ (∃ e, read_utf8 w (path_join (book_folder w) f) = UnicodeDecodeError e)
    ∧ read_latin1 w (path_join (book_folder w) f) = Ok s →
  ¬ all_space s →
  ∃ doc pre post white1 white2,
    writes (trace (book_main w)) = [doc]
    ∧ stored doc
      = pre ++ format_page_separator (S i) f ++ Py.strip s ++ post
    ∧ s = white1 ++ Py.strip s ++ white2
    ∧ all_space white1 ∧ all_space white2.
Proof.
  intros Hex Henc Hi Hkind Hread Hs.
  assert (book_text w f = Py.strip s) as Htext.
  { unfold book_text, value, book_content, read_text_file. rewrite Hkind.
    destruct Hread as [->|[[e ->] ->]]; done. }
  destruct (strip_spec s) as (white1 & white2 & Hsplit & H1 & H2 & _).
  destruct (book_document_page w (S i) f (Py.strip s) Hex)
    as (pre & post & Hdoc).
  { apply pages_elem. exists i. split_and!; [done|done|done|].
    by rewrite strip_nil. }
  eexists _, pre, post, white1, white2. split_and!; [exact Hdoc| |done..].
  apply stored_encodable, (book_document_encodable w); [done|].
  rewrite Hdoc. apply list_elem_of_here.
Qed.

(** The text file of the sample folder. *)
Lemma text_file_round_trip_witness :
  ∃ doc pre post,
    writes (trace (book_main demo_world)) = [doc]
    ∧ stored doc
      = pre ++ format_page_separator 3 (ustr "c.txt")
          ++ (ustr "Hello" ++ [Py.NL] ++ ustr "World") ++ post.
Proof.
  destruct (text_file_round_trip demo_world 2 (ustr "c.txt")
              (ustr "Hello" ++ [Py.NL] ++ ustr "World"))
    as (doc & pre & post & _ & _ & Hdoc & Hstored & _);
    [reflexivity
    |split_and!; apply (bool_decide_unpack _); by vm_compute
    |reflexivity|reflexivity|by left| |by exists doc, pre, post].
  intros Hall. by apply Forall_cons in Hall as [? _].
Defined.

(** ** What a run reports *)

Section report_facts.

Lemma count_newlines_app s1 s2 :
  count_newlines (s1 ++ s2) = count_newlines s1 + count_newlines s2.
Proof. unfold count_newlines. by rewrite List.filter_app, length_app. Qed.

Lemma count_newlines_join_lines l :
  length l - 1 ≤ count_newlines (join_lines l).
Proof.
  induction l as [|a [|b l] IH]; [simpl; lia..|].
  change (join_lines (a :: b :: l))
    with (a ++ Py.NL :: join_lines (b :: l)).
  rewrite count_newlines_app.
  change (count_newlines (Py.NL :: ?s)) with (S (count_newlines s)).
  simpl in *. lia.
Qed.

Lemma length_simple_blocks ps : length (ps ≫= simple_block) = 5 * length ps.
Proof.
  induction ps as [|[[n p] c] ps IH]; [done|].
  cbn [mbind list_bind]. rewrite length_app, IH. simpl. lia.
Qed.

Lemma length_book_blocks ps :
  length (mjoin (ps ≫= book_block))
  = sum_list ((λ q, length (format_page_separator q.1.1 q.1.2) + length q.2)
                <$> ps).
Proof.
  induction ps as [|[[n f] c] ps IH]; [done|].
  cbn [mbind list_bind]. rewrite join_app, length_app, IH.
  cbn [book_block mjoin list_join fmap list_fmap sum_list sum_list_with fst snd].
  rewrite !length_app. simpl. lia.
Qed.

(** The last events of a run of the Book variant that writes. *)
Lemma book_main_tail w doc :
  doc ∈ writes (trace (book_main w)) →
  ∃ t final_text,
    final_text = mjoin (pages (book_text w) 1 (book_files w) ≫= book_block)
    ∧ doc = book_header (length (book_files w)) (output_mtime w) ++ final_text
    ∧ trace (book_main w)
      = t ++ [Write doc; Print MsgRule; Print MsgSaved; Print MsgStatsHeading;
              Print (MsgStatFiles (length (book_files w)));
              Print (MsgStatChars (Py.len final_text));
              Print (MsgStatLines (count_newlines final_text + 1));
              Print MsgRule; Print MsgDone].
Proof.
  rewrite book_main_writes, book_main_run.
  destruct (book_exists w); [|by intros ?%elem_of_nil]. cbn [negb].
  destruct (pages (book_text w) 1 (book_files w)) as [|q qs] eqn:Hps;
    [by intros ?%elem_of_nil|].
  intros ->%list_elem_of_singleton.
  destruct (book_files w) as [|g files] eqn:Hfiles; [done|].
  cbv zeta. cbn [trace fst]. eexists _, _. split; [done|]. split; [done|].
  by rewrite (assoc_L (++)).
Qed.

Lemma simple_main_tail w doc :
  doc ∈ writes (trace (simple_main w)) →
  ∃ t all_text,
    all_text = pages (simple_text w) 1 (simple_files w) ≫= simple_block
    ∧ doc = join_lines all_text
    ∧ trace (simple_main w)
      = t ++ [Write doc; Print MsgRule; Print MsgSaved;
              Print (MsgLineTotal (length all_text)); Print MsgRule].
Proof.
  rewrite simple_main_writes, simple_main_run. cbv zeta.
  destruct (pages (simple_text w) 1 (simple_files w)) as [|q qs] eqn:Hps;
    [by intros ?%elem_of_nil|].
  intros ->%list_elem_of_singleton.
  destruct (simple_files w) as [|g files] eqn:Hfiles; [done|].
  cbn [trace fst]. eexists _, _. split; [done|]. split; [done|].
  by rewrite (assoc_L (++)).
Qed.

End report_facts.

(** X9: when the Book variant writes a document, the character count it
    prints is the length of the document without its header (the lengths of
    all separators and page texts together), the line count is counted on
    that same text, and the file count is that of all files found. *)
Theorem book_statistics (w : world) (doc : str) :
  doc ∈ writes (trace (book_main w)) →
  ∃ chars final_text,
    doc = book_header (length (book_files w)) (output_mtime w) ++ final_text
    ∧ Print (MsgStatChars chars) ∈ trace (book_main w)
    ∧ length doc
      = length (book_header (length (book_files w)) (output_mtime w)) + chars
    ∧ chars
      = sum_list
          ((λ q, length (format_page_separator q.1.1 q.1.2) + length q.2)
             <$> pages (book_text w) 1 (book_files w))
    ∧ Print (MsgStatLines (count_newlines final_text + 1))
        ∈ trace (book_main w)
    ∧ Print (MsgStatFiles (length (book_files w))) ∈ trace (book_main w).
Proof.
  intros (t & final_text & Htext & Hdoc & Htrace)%book_main_tail.
  exists (Py.len final_text), final_text. rewrite Htrace.
  split_and!; [done| | | | |].
  - apply elem_of_app. right. do 5 apply list_elem_of_further.
    apply list_elem_of_here.
  - by rewrite Hdoc, length_app.
  - rewrite Htext. apply length_book_blocks.
  - apply elem_of_app. right. do 6 apply list_elem_of_further.
    apply list_elem_of_here.
  - apply elem_of_app. right. do 4 apply list_elem_of_further.
    apply list_elem_of_here.
Qed.

(** The sample folder: three files found, three pages. *)
Lemma book_statistics_witness :
  Print (MsgStatFiles 3) ∈ trace (book_main demo_world)
  ∧ ∃ chars,
      Print (MsgStatChars chars) ∈ trace (book_main demo_world)
      ∧ chars
        = sum_list
            ((λ q, length (format_page_separator q.1.1 q.1.2) + length q.2)
               <$> pages (book_text demo_world) 1 (book_files demo_world)).
Proof.
  destruct (book_statistics demo_world
              (default [] (head (writes (trace (book_main demo_world))))))
    as (chars & final_text & _ & Hchars & _ & Hsum & _ & Hfiles).
  { apply (bool_decide_unpack _). vm_compute. exact I. }
  split; [exact Hfiles|]. exists chars. by split.
Defined.

(** X10: the line total the simple variant prints after writing is five per
    page, whatever the texts contain; the document has at least that many
    lines. *)
Theorem simple_line_total (w : world) (doc : str) :
  doc ∈ writes (trace (simple_main w)) →
  Print (MsgLineTotal (5 * length (pages (simple_text w) 1 (simple_files w))))
    ∈ trace (simple_main w)
  ∧ 5 * length (pages (simple_text w) 1 (simple_files w))
    ≤ count_newlines doc + 1.
Proof.
  intros (t & all_text & Htext & Hdoc & Htrace)%simple_main_tail.
  rewrite Htrace, <-length_simple_blocks, <-Htext. split.
  - apply elem_of_app. right. do 3 apply list_elem_of_further.
    apply list_elem_of_here.
  - rewrite Hdoc. pose proof (count_newlines_join_lines all_text). lia.
Qed.

(** The sample folder: two pages, a total of 10, and 16 lines. *)
Lemma simple_line_total_witness :
  Print (MsgLineTotal 10) ∈ trace (simple_main demo_world)
  ∧ count_newlines
      (default [] (head (writes (trace (simple_main demo_world))))) + 1
    = 16.
Proof.
  split; [|reflexivity].
  apply (simple_line_total demo_world
           (default [] (head (writes (trace (simple_main demo_world)))))).
  apply (bool_decide_unpack _). vm_compute. exact I.
Defined.

(** X11: a run of the Book variant calls the recognition engine at most
    four times for each image in its file list and never for another file:
    every call is one of the four of an image of the list, on the path of
    that image in the Book folder. *)
Theorem book_engine_calls (w : world) :
  length (invocations (trace (book_main w)))
  ≤ 4 * length (filter (λ f, classify f = KImage) (book_files w))
  ∧ ∀ ev, ev ∈ invocations (trace (book_main w)) →
          ∃ f, f ∈ book_files w ∧ classify f = KImage
               ∧ ev ∈ book_triples (path_join (book_folder w) f).
Proof.
  rewrite book_main_invocations.
  destruct (loop_trace_calls (book_round w (length (book_files w)))
              (book_calls w) (book_files w)
              (book_round_calls w (length (book_files w))) 1)
    as [Hlen Hin].
  rewrite sum_book_calls in Hlen.
  destruct (book_exists w); [|split; [simpl; lia|by intros ev ?%elem_of_nil]].
  split; [done|]. intros ev (f & Hf & Hcalls)%Hin. exists f.
  unfold book_calls in Hcalls.
  destruct (classify f); [done|by apply elem_of_nil in Hcalls..].
Qed.

(** X12: a run of the simple variant calls the recognition engine at most
    three times for each file of its list, and every call is one of the
    three of a file of the list. *)
Theorem simple_engine_calls (w : world) :
  length (invocations (trace (simple_main w))) ≤ 3 * length (simple_files w)
  ∧ ∀ ev, ev ∈ invocations (trace (simple_main w)) →
          ∃ p, p ∈ simple_files w ∧ ev ∈ simple_triples p.
Proof.
  rewrite simple_main_invocations.
  destruct (loop_trace_calls (simple_round w (length (simple_files w)))
              simple_triples (simple_files w)
              (simple_round_calls w (length (simple_files w))) 1)
    as [Hlen Hin].
  by rewrite sum_simple_calls in Hlen.
Qed.

(** ** Every file once *)

Section once_facts.

(** No literal part of a pattern of the scripts ends another one. *)
Lemma book_patterns_apart :
  Forall (λ p1,
    Forall (λ p2, head p1 = Some STAR
                  ∧ (tail p1 `suffix_of` tail p2 → p1 = p2))
      (book_image_extensions ++ book_text_extensions))
    (book_image_extensions ++ book_text_extensions).
Proof. apply (bool_decide_unpack _). by vm_compute. Qed.

Lemma simple_patterns_sublist :
  simple_image_extensions
    `sublist_of` book_image_extensions ++ book_text_extensions.
Proof.
  unfold simple_image_extensions, book_image_extensions. simpl.
  repeat apply sublist_skip. apply sublist_nil_l.
Qed.

(** A name matches at most one pattern. *)
Lemma fnmatch_exclusive name p1 p2 :
  p1 ∈ book_image_extensions ++ book_text_extensions →
  p2 ∈ book_image_extensions ++ book_text_extensions →
  fnmatch name p1 = true → fnmatch name p2 = true → p1 = p2.
Proof.
  intros H1 H2 Hm1 Hm2.
  pose proof book_patterns_apart as Hapart.
  rewrite Forall_forall in Hapart.
  pose proof (Hapart p1 H1) as Ha. pose proof (Hapart p2 H2) as Hb.
  rewrite Forall_forall in Ha, Hb.
  destruct (Ha p2 H2) as [Hs1 H12]. destruct (Hb p1 H1) as [Hs2 H21].
  destruct p1 as [|c1 l1]; [done|]. destruct p2 as [|c2 l2]; [done|].
  injection Hs1 as ->. injection Hs2 as ->.
  apply fnmatch_star in Hm1 as [s1 Hn1]. apply fnmatch_star in Hm2 as [s2 Hn2].
  destruct (suffix_weak_total l1 l2 name) as [?|?];
    [by exists s1|by exists s2|by apply H12|symmetry; by apply H21].
Qed.

Lemma NoDup_patterns :
  NoDup (book_image_extensions ++ book_text_extensions).
Proof. apply (bool_decide_unpack _). by vm_compute. Qed.

Lemma book_files_NoDup w : NoDup (listdir w) → NoDup (book_files w).
Proof.
  intros Hdir. rewrite book_files_eq, sort_perm. apply NoDup_bind.
  - unfold Path_glob.
    intros p1 p2 f H1 H2 [Hm1 _]%list_elem_of_filter
      [Hm2 _]%list_elem_of_filter.
    by apply (fnmatch_exclusive f).
  - intros p _. by apply NoDup_filter.
  - apply NoDup_patterns.
Qed.

Lemma simple_files_NoDup w : NoDup (listdir w) → NoDup (simple_files w).
Proof.
  intros Hdir. destruct (has_magic (glob_dirname w)) eqn:Hmagic.
  - rewrite simple_files_magic, sort_perm by done. apply NoDup_bind.
    + intros p1 p2 f H1 H2 [[_ Hm1] _]%list_elem_of_filter
        [[_ Hm2] _]%list_elem_of_filter.
      apply (fnmatch_exclusive (Path_name f)); [| |done..];
        by eapply elem_of_sublist; [|apply simple_patterns_sublist].
    + intros p _. apply NoDup_filter, NoDup_elements.
    + eapply sublist_NoDup; [|apply simple_patterns_sublist].
      apply NoDup_patterns.
  - rewrite simple_files_eq by done. unfold path_join.
    apply (NoDup_fmap_2 _). rewrite sort_perm. unfold simple_names.
    apply NoDup_bind.
    + intros p1 p2 f H1 H2 [[_ Hm1] _]%list_elem_of_filter
        [[_ Hm2] _]%list_elem_of_filter.
      apply (fnmatch_exclusive f); [| |done..];
        by eapply elem_of_sublist; [|apply simple_patterns_sublist].
    + intros p _. by apply NoDup_filter.
    + eapply sublist_NoDup; [|apply simple_patterns_sublist].
      apply NoDup_patterns.
Qed.

End once_facts.

(** X13: when the directory lists no name twice, no file is taken twice:
    the file list of the Book variant, the names its run announces and the
    path list of the simple variant are free of repetitions, although a
    name is looked for under ten (six) patterns. *)
Theorem each_file_once (w : world) :
  NoDup (listdir w) →
  NoDup (book_files w)
  ∧ NoDup (processed (trace (book_main w)))
  ∧ NoDup (simple_files w).
Proof.
  intros Hdir. split; [by apply book_files_NoDup|split].
  - rewrite book_main_processed.
    destruct (book_exists w); [by apply book_files_NoDup|constructor].
  - by apply simple_files_NoDup.
Qed.

Lemma each_file_once_witness :
  NoDup (listdir demo_world)
  ∧ NoDup (book_files demo_world)
  ∧ NoDup (processed (trace (book_main demo_world)))
  ∧ NoDup (simple_files demo_world).
Proof.
  split; [|apply (each_file_once demo_world)];
    apply (bool_decide_unpack _); by vm_compute.
Defined.
